(** * inspircd-auth-gate-generator: a shallow embedding

    The script fetches a plaintext IP list over HTTP, renders two InspIRCd
    [<connect>] blocks from it and writes them to a file or to standard
    output.  This development embeds [main] of
    [src/inspircd-auth-gate-generator.py] as a computation in a small
    state-and-exception monad over an explicit world (network, random
    source, standard streams, file system) and proves the properties of the
    rendered text and of the effects.

    Text is modelled as [string]; a character stands for a code point
    below 256, and in a bytes object for a byte. *)

From Stdlib Require Import Ascii ZArith NArith Lia.
From stdpp Require Import base list strings gmap.

(** ** The parts of the Python runtime the script uses *)

Module Py.

Definition LF : ascii := "010"%char.
Definition CR : ascii := "013"%char.

(** The line feed and the double quote, as one-character strings. *)
Definition nl : string := String LF "".
Definition dq : string := String "034"%char "".

(** [sep.join(ls)]. *)
Fixpoint join (sep : string) (ls : list string) : string :=
  match ls with
  | [] => ""
  | [x] => x
  | x :: xs => x +:+ sep +:+ join sep xs
  end.

(** [enumerate(l)], counting from [i]. *)
Fixpoint enumerate_from (i : nat) (l : list string) : list (nat * string) :=
  match l with
  | [] => []
  | x :: xs => (i, x) :: enumerate_from (S i) xs
  end.

Definition enumerate (l : list string) : list (nat * string) :=
  enumerate_from 0 l.

(** The characters at which [str.splitlines] ends a line. *)
Definition is_linebreak (c : ascii) : bool :=
  match c with
  | "010" | "011" | "012" | "013" | "028" | "029" | "030" | "133" => true
  | _ => false
  end%char.

(** The bytes at which [bytes.splitlines] ends a line. *)
Definition is_bytes_linebreak (c : ascii) : bool :=
  match c with
  | "010" | "013" => true
  | _ => false
  end%char.

(** [splitlines()] of a str or of a bytes object, which differ in the
    line breaks [br] they know: [cur] is the line being read.  A line break
    ends the current line, a carriage return directly followed by a line
    feed counts as one break, and text after the last break is a line of
    its own only when it is not empty. *)
Fixpoint splitlines_go (br : ascii → bool) (cur : string) (s : string)
  : list string :=
  match s with
  | "" => match cur with "" => [] | _ => [cur] end
  | String c s' =>
      if br c then
        match s' with
        | String c' s'' =>
            if Ascii.eqb c CR && Ascii.eqb c' LF
            then cur :: splitlines_go br "" s''
            else cur :: splitlines_go br "" s'
        | "" => cur :: splitlines_go br "" s'
        end
      else splitlines_go br (cur +:+ String c "") s'
  end.

(** [str.splitlines()] and [bytes.splitlines()]. *)
Definition splitlines (s : string) : list string :=
  splitlines_go is_linebreak "" s.

Definition bytes_splitlines (b : string) : list string :=
  splitlines_go is_bytes_linebreak "" b.

(** [s[-1]]. *)
Fixpoint last_char (s : string) : option ascii :=
  match s with
  | "" => None
  | String c "" => Some c
  | String _ s' => last_char s'
  end.

(** Truth value of a string: non-empty. *)
Definition truthy (s : string) : bool :=
  match s with "" => false | _ => true end.

(** The hexadecimal digit of a value below sixteen, in lower case. *)
Definition hex_digits : list ascii :=
  ["0"; "1"; "2"; "3"; "4"; "5"; "6"; "7";
   "8"; "9"; "a"; "b"; "c"; "d"; "e"; "f"]%char.

Definition hex_digit (d : N) : ascii :=
  default "?"%char (hex_digits !! N.to_nat d).

(** [n] in [k] hexadecimal digits, as the format [%0kx] writes a number
    below the k-th power of sixteen. *)
Fixpoint hex_fixed (k : nat) (n : N) : string :=
  match k with
  | O => ""
  | S k' => hex_fixed k' (n / 16) +:+ String (hex_digit (n mod 16)) ""
  end.

(** The backslash and the single quote. *)
Definition backslash : ascii := "092"%char.
Definition squote : ascii := "039"%char.

Fixpoint has_char (c : ascii) (s : string) : bool :=
  match s with
  | "" => false
  | String a s' => Ascii.eqb a c || has_char c s'
  end.

(** The quote [repr] puts around a bytes object: the single quote, unless
    the bytes hold a single quote and no double quote. *)
Definition repr_quote (b : string) : ascii :=
  if has_char squote b && negb (has_char "034"%char b)
  then "034"%char else squote.

(** How [repr] writes one byte inside the quotes [q]: the quote and the
    backslash after a backslash, tab, line feed and carriage return by
    their letters, other bytes outside the printable ASCII range by their
    two hexadecimal digits, any other byte as it is. *)
Definition repr_byte (q : ascii) (c : ascii) : string :=
  if Ascii.eqb c q || Ascii.eqb c backslash then String backslash (String c "")
  else if Ascii.eqb c "009" then String backslash "t"
  else if Ascii.eqb c LF then String backslash "n"
  else if Ascii.eqb c CR then String backslash "r"
  else if (N_of_ascii c <? 32)%N || (127 <=? N_of_ascii c)%N then
    String backslash
      (String "x" (String (hex_digit (N_of_ascii c / 16))
                     (String (hex_digit (N_of_ascii c mod 16)) "")))
  else String c "".

Fixpoint repr_bytes_go (q : ascii) (b : string) : string :=
  match b with
  | "" => ""
  | String c b' => repr_byte q c +:+ repr_bytes_go q b'
  end.

(** [repr(b)] of a bytes object, which is also what [str(b)] and an
    f-string give for it. *)
Definition bytes_repr (b : string) : string :=
  let q := repr_quote b in
  String "b" (String q (repr_bytes_go q b +:+ String q "")).

(** The number of the UUID that [uuid.uuid4()] makes of sixteen random
    bytes, read as a number [r] below the 128th power of two: the variant
    bits are set to 10 and the version to 4. *)
Definition uuid4_int (r : N) : N :=
  let i := N.ldiff r (N.shiftl 0xc000 48) in
  let i := N.lor i (N.shiftl 0x8000 48) in
  let i := N.ldiff i (N.shiftl 0xf000 64) in
  N.lor i (N.shiftl 4 76).

(** [str(u)] of a UUID with the number [i]: its 32 hexadecimal digits in
    groups of 8, 4, 4, 4 and 12, with hyphens between the groups. *)
Definition uuid_str (i : N) : string :=
  let hex := hex_fixed 32 i in
  String.substring 0 8 hex +:+ "-" +:+ String.substring 8 4 hex +:+ "-"
  +:+ String.substring 12 4 hex +:+ "-" +:+ String.substring 16 4 hex +:+ "-"
  +:+ String.substring 20 12 hex.

End Py.

(** ** The response object of the [requests] library

    [main] reads the list with [res.iter_lines(decode_unicode=True)].  The
    iterator of the library walks over the chunks of the content with a
    variable [pending], at first [None].  For each chunk it puts the
    pending text, if any, before the chunk and splits the result with
    [splitlines]; when the last line is not empty and ends with the last
    character of the chunk, so that no line break closed it, that line is
    taken off the list and becomes [pending], otherwise [pending] is
    [None]; the lines left are yielded.  After the last chunk a pending
    text is yielded as the last line.

    With [decode_unicode=True] the chunks are str objects when the
    response has an encoding (a charset in its headers, or a text content
    type) and the lines are split by [str.splitlines].  When the response
    has no encoding the library hands the chunks on undecoded: they are
    bytes objects, split by [bytes.splitlines], and the lines are bytes
    objects. *)

Module Requests.
Import Py.

(** The content as [iter_content(decode_unicode=True)] hands it out: the
    decoded chunks, or for a response without encoding the raw chunks,
    together with the text that [res.text] shows for them, which the
    library decodes with a charset it guesses. *)
Inductive Chunks :=
| Decoded (cs : list string)
| Raw (cs : list string) (shown : string).

(** A list of chunks written without more ado is decoded content. *)
#[warning="-uniform-inheritance"]
Coercion Decoded : list >-> Chunks.

(** A response, as far as [main] looks at it: the status code and the
    content.  A charset that the response declares is taken to be one that
    Python knows. *)
Record Response := mkResponse {
  status_code : Z;
  chunks : Chunks
}.

(** [res.text]: the whole body as text. *)
Definition text (res : Response) : string :=
  match chunks res with
  | Decoded cs => foldr String.app "" cs
  | Raw _ shown => shown
  end.

(** One round of the loop of [iter_lines] over the chunks: the lines
    yielded and the new value of [pending]; [br] tells the line breaks of
    the [splitlines] of the chunks. *)
Definition iter_lines_step (br : ascii → bool) (pending : option string)
    (chunk : string) : list string * option string :=
  let chunk :=
    match pending with Some p => p +:+ chunk | None => chunk end in
  let lines := splitlines_go br "" chunk in
  match last lines with
  | Some l =>
      if truthy l && truthy chunk
         && bool_decide (last_char l = last_char chunk)
      then (removelast lines, Some l)
      else (lines, None)
  | None => (lines, None)
  end.

Fixpoint iter_lines_go (br : ascii → bool) (pending : option string)
    (cs : list string) : list string :=
  match cs with
  | [] => match pending with Some p => [p] | None => [] end
  | c :: cs' =>
      let '(ys, pending') := iter_lines_step br pending c in
      ys ++ iter_lines_go br pending' cs'
  end.

(** [list(res.iter_lines(decode_unicode=True))].  [main] does two things
    with a line: it counts it and it formats it into an f-string.  A line
    is therefore given by the text an f-string shows for it: a str line is
    that text itself, a bytes line is shown as its [repr]. *)
Definition iter_lines (res : Response) : list string :=
  match chunks res with
  | Decoded cs => iter_lines_go is_linebreak None cs
  | Raw cs _ => bytes_repr <$> iter_lines_go is_bytes_linebreak None cs
  end.

End Requests.

(** ** The world the script runs in, and its effects *)

Module IO.
Import Requests.

(** What a run can read and change: the network, seen as the response the
    server behind each URL gives (none when the request fails); the
    random source of the system, seen as the sixteen bytes that the n-th
    [os.urandom(16)] returns, read as a number, with the number of draws
    so far; the two standard streams; the files with their contents, and
    the paths that cannot be opened for writing. *)
Record World := mkWorld {
  net : string → option Response;
  urandom : nat → N;
  uuid_drawn : nat;
  w_stdout : string;
  w_stderr : string;
  files : gmap string string;
  locked : gset string
}.

(** The exceptions that reach the top level uncaught. *)
Inductive exn := RequestException | OSError.

Inductive result (A : Type) :=
| Ok (a : A)
| Raise (e : exn).
Global Arguments Ok {A} a.
Global Arguments Raise {A} e.

(** A statement: it changes the world and returns or raises. *)
Definition M (A : Type) : Type := World → World * result A.

Definition ret {A} (a : A) : M A := λ w, (w, Ok a).

Definition bind {A B} (k : A → M B) (m : M A) : M B :=
  λ w, match m w with
       | (w', Ok a) => k a w'
       | (w', Raise e) => (w', Raise e)
       end.

(** Sequencing is written [x ← m; k] and [m;; k]. *)
Global Instance M_ret : MRet M := @ret.
Global Instance M_bind : MBind M := @bind.

(** The target of [f.write]. *)
Inductive handle := Stdout | File (path : string).

(** [requests.get(url, timeout=10)]. *)
Definition requests_get (url : string) : M Response :=
  λ w, match net w url with
       | Some res => (w, Ok res)
       | None => (w, Raise RequestException)
       end.

(** The text of the UUID made of the n-th sixteen random bytes. *)
Definition uuid_source (w : World) (n : nat) : string :=
  Py.uuid_str (Py.uuid4_int (urandom w n mod 2 ^ 128)).

(** [str(uuid.uuid4())]: the UUID of the next sixteen random bytes. *)
Definition uuid4 : M string :=
  λ '(mkWorld net rnd drawn out err fs lk),
    (mkWorld net rnd (S drawn) out err fs lk,
     Ok (Py.uuid_str (Py.uuid4_int (rnd drawn mod 2 ^ 128)))).

(** [print(s, file=stderr)]. *)
Definition print_stderr (s : string) : M unit :=
  λ '(mkWorld net rnd drawn out err fs lk),
    (mkWorld net rnd drawn out (err +:+ s +:+ Py.nl) fs lk, Ok tt).

(** [open(path, "w", encoding="utf8")]: the file is created or emptied. *)
Definition open_w (path : string) : M handle :=
  λ '(mkWorld net rnd drawn out err fs lk),
    if decide (path ∈ lk)
    then (mkWorld net rnd drawn out err fs lk, Raise OSError)
    else (mkWorld net rnd drawn out err (<[path := ""]> fs) lk,
          Ok (File path)).

(** [f.write(s)]. *)
Definition write (f : handle) (s : string) : M unit :=
  λ '(mkWorld net rnd drawn out err fs lk),
    match f with
    | Stdout => (mkWorld net rnd drawn (out +:+ s) err fs lk, Ok tt)
    | File path =>
        (mkWorld net rnd drawn out err (alter (λ c, c +:+ s) path fs) lk,
         Ok tt)
    end.

(** Leaving the [with] block closes the handle; the text written stays. *)
Definition close (f : handle) : M unit := ret tt.

End IO.

(** ** The generator *)

Module Generator.
Import Py Requests IO.

(** The parsed command line. *)
Record Namespace := mkNamespace {
  message : string;
  output : string;
  parent : string;
  url : string
}.

(** The values [parser] gives to options left out. *)
Definition defaults : Namespace :=
  {| message := "You need to identify via SASL to use this server.";
     output := "";
     parent := "main";
     url := "https://raw.githubusercontent.com/X4BNet/lists_vpn/main/output/vpn/ipv4.txt" |}.

(** [class_name], from the identifier drawn. *)
Definition class_name (uuid : string) : string := "auth-gate-" +:+ uuid.

(** One round of the loop over [enumerate(ip_addresses)]; [n] is
    [len(ip_addresses)] and the state is the pair of [allow] and [deny]. *)
Definition loop_body (n : nat) (st : string * string) (x : nat * string)
  : string * string :=
  let '(allow, deny) := st in
  let '(i, ip) := x in
  if (Z.of_nat i <? Z.of_nat n - 1)%Z then
    (allow +:+ ("    allow=" +:+ dq +:+ ip +:+ dq +:+ nl),
     deny +:+ ("    deny=" +:+ dq +:+ ip +:+ dq +:+ nl))
  else
    (allow +:+ ("    allow=" +:+ dq +:+ ip +:+ dq),
     deny +:+ ("    deny=" +:+ dq +:+ ip +:+ dq)).

(** [allow] and [deny] after the loop. *)
Definition allow_deny (ip_addresses : list string) : string * string :=
  fold_left (loop_body (length ip_addresses)) (enumerate ip_addresses)
            ("", "").

Definition allow_block (class_name allow parent : string) : string :=
  "<connect name=" +:+ dq +:+ class_name +:+ dq +:+ nl +:+ allow +:+ nl
  +:+ "    registered=" +:+ dq +:+ "true" +:+ dq +:+ nl
  +:+ "    requireaccount=" +:+ dq +:+ "yes" +:+ dq +:+ nl
  +:+ "    parent=" +:+ dq +:+ parent +:+ dq +:+ ">".

Definition deny_block (deny message : string) : string :=
  "<connect" +:+ nl +:+ deny +:+ nl
  +:+ "    registered=" +:+ dq +:+ "true" +:+ dq +:+ nl
  +:+ "    reason=" +:+ dq +:+ message +:+ dq +:+ ">".

(** The two blocks, from the arguments, the list read and the identifier
    drawn. *)
Definition render (args : Namespace) (ip_addresses : list string)
    (uuid : string) : string * string :=
  let '(allow, deny) := allow_deny ip_addresses in
  (allow_block (class_name uuid) allow (parent args),
   deny_block deny (message args)).

Definition banner : string :=
  "# Authentication gate configuration auto-generated by inspircd-auth-gate-generator.py"
  +:+ nl.

(** [main()], given the parsed arguments. *)
Definition main (args : Namespace) : M unit :=
  res ← requests_get (url args);
  (if negb (status_code res =? 200)%Z then
     print_stderr "URL request did not return OK status";;
     print_stderr (text res)
   else ret tt);;
  let ip_addresses := iter_lines res in
  uuid ← uuid4;
  let '(allow_block, deny_block) := render args ip_addresses uuid in
  let use_file := negb (String.length (output args) =? 0) in
  f ← (if use_file then open_w (output args) else ret Stdout);
  write f banner;;
  write f allow_block;;
  write f nl;;
  write f deny_block;;
  write f nl;;
  close f.

End Generator.

(** ** Reading the rendered text back

    The vocabulary in which the properties of the output are stated: the
    lines of a text, the attribute lines of a block and the value an
    attribute line quotes. *)

Module Text.
Import Py Requests Generator IO.

(** No line feed in [s]. *)
Fixpoint lf_free (s : string) : bool :=
  match s with
  | "" => true
  | String c s' => negb (Ascii.eqb c LF) && lf_free s'
  end.

(** None of the line breaks [br] in [s]. *)
Fixpoint lb_free (br : ascii → bool) (s : string) : bool :=
  match s with
  | "" => true
  | String c s' => negb (br c) && lb_free br s'
  end.

(** The lines of a text: the pieces between its line feeds. *)
Fixpoint split_nl (s : string) : list string :=
  match s with
  | "" => [""]
  | String c s' =>
      if Ascii.eqb c LF then "" :: split_nl s'
      else match split_nl s' with
           | l :: ls => String c l :: ls
           | [] => [String c ""]
           end
  end.

(** An attribute line: four spaces, the key, the value in quotes. *)
Definition attr (key value : string) : string :=
  "    " +:+ key +:+ "=" +:+ dq +:+ value +:+ dq.

(** The part of an attribute line before the value. *)
Definition attr_open (key : string) : string :=
  "    " +:+ key +:+ "=" +:+ dq.

(** The lines of a block that set the attribute [key]. *)
Definition entry_lines (key block : string) : list string :=
  List.filter (String.prefix (attr_open key)) (split_nl block).

(** [s] without the prefix [p]. *)
Fixpoint strip_prefix (p s : string) : option string :=
  match p, s with
  | "", _ => Some s
  | String a p', String b s' =>
      if Ascii.eqb a b then strip_prefix p' s' else None
  | String _ _, "" => None
  end.

(** [s] without a closing quote. *)
Fixpoint strip_quote (s : string) : option string :=
  match s with
  | "" => None
  | String c "" => if Ascii.eqb c "034" then Some "" else None
  | String c s' => String c <$> strip_quote s'
  end.

(** The value quoted by an attribute line for [key]. *)
Definition entry_value (key line : string) : option string :=
  strip_prefix (attr_open key) line ≫= strip_quote.

(** The lines the allow block and the deny block are made of. *)
Definition allow_lines (uuid : string) (ips : list string) (parent : string)
  : list string :=
  ["<connect name=" +:+ dq +:+ "auth-gate-" +:+ uuid +:+ dq]
  ++ map (attr "allow") ips
  ++ [attr "registered" "true"; attr "requireaccount" "yes";
      attr "parent" parent +:+ ">"].

Definition deny_lines (ips : list string) (message : string) : list string :=
  ["<connect"]
  ++ map (attr "deny") ips
  ++ [attr "registered" "true"; attr "reason" message +:+ ">"].

(** The whole text of a run with the list [ips] and the identifier
    [uuid]. *)
Definition document (args : Namespace) (ips : list string) (uuid : string)
  : string :=
  banner +:+ (render args ips uuid).1 +:+ nl
         +:+ (render args ips uuid).2 +:+ nl.

(** The identifier a run from [w] draws. *)
Definition next_uuid (w : World) : string := uuid_source w (uuid_drawn w).

(** Where a run with [args] from [w] to [w'] has put the text [t]. *)
Definition delivered (args : Namespace) (w w' : World) (t : string) : Prop :=
  if decide (output args = "")
  then w_stdout w' = w_stdout w +:+ t ∧ files w' = files w
  else files w' = <[output args := t]> (files w) ∧ w_stdout w' = w_stdout w.

(** What a run that got the response [res] says on the error stream. *)
Definition complaint (res : Response) : string :=
  if negb (status_code res =? 200)%Z
  then "URL request did not return OK status" +:+ nl +:+ text res +:+ nl
  else "".

(** The destination can be written: standard output always, a file
    unless its path is locked. *)
Definition writable (args : Namespace) (w : World) : Prop :=
  output args = "" ∨ output args ∉ locked w.

(** Where [splitlines] stands at the end of [s]: the lines it has
    completed and the line it is reading. *)
Fixpoint scan (br : ascii → bool) (cur : string) (s : string)
  : list string * string :=
  match s with
  | "" => ([], cur)
  | String c s' =>
      if br c then
        match s' with
        | String c' s'' =>
            if Ascii.eqb c CR && Ascii.eqb c' LF
            then (cur :: (scan br "" s'').1, (scan br "" s'').2)
            else (cur :: (scan br "" s').1, (scan br "" s').2)
        | "" => ([cur], "")
        end
      else scan br (cur +:+ String c "") s'
  end.

(** The unfinished line as a list of at most one line, and as the value of
    [pending]. *)
Definition open_line (r : string) : list string :=
  if truthy r then [r] else [].

Definition open_pending (r : string) : option string :=
  if truthy r then Some r else None.

(** What is pending is an unfinished line: not empty, without line break. *)
Definition pending_ok (br : ascii → bool) (pending : option string) : Prop :=
  ∀ p, pending = Some p → truthy p ∧ lb_free br p.


(** The lines between the header and the footer of a block: those of the
    entries, or one empty line when there is no entry. *)
Definition entries_or_blank (key : string) (ips : list string) : list string :=
  match ips with
  | [] => [""]
  | _ => map (attr key) ips
  end.

(** [s] begins with a line feed. *)
Definition starts_with_lf (s : string) : bool :=
  match s with
  | String c _ => Ascii.eqb c LF
  | "" => false
  end.

(** Some chunk ends with a carriage return while the content after it
    begins with a line feed: a line end cut in two by a chunk border. *)
Fixpoint crlf_cut (cs : list string) : bool :=
  match cs with
  | [] => false
  | c :: cs' =>
      (bool_decide (last_char c = Some CR)
       && starts_with_lf (foldr String.app "" cs'))
      || crlf_cut cs'
  end.

(** The content of the chunks as the line iterator reads it: the chunks
    one after the other, with a line end that a chunk border cuts between
    its carriage return and its line feed read as two line ends, here
    written by a second carriage return at the border. *)
Fixpoint glue (cs : list string) : string :=
  match cs with
  | [] => ""
  | c :: cs' =>
      c +:+ (if bool_decide (last_char c = Some CR)
                && starts_with_lf (foldr String.app "" cs')
             then String CR "" else "")
        +:+ glue cs'
  end.

(** The number of the UUID a run from [w] draws. *)
Definition next_uuid_int (w : World) : N :=
  uuid4_int (urandom w (uuid_drawn w) mod 2 ^ 128).

End Text.

(** ** Sample runs *)

Module Sample.
Import Py Requests IO Generator.

(** A list with an empty line between its two entries. *)
Definition body : string :=
  "1.2.3.4/32" +:+ nl +:+ nl +:+ "5.6.7.8/24" +:+ nl.

Definition ok_response : Response := mkResponse 200 [body].

(** An error page, cut in two chunks. *)
Definition error_response : Response :=
  mkResponse 404 ["404: Not"; " Found" +:+ nl].

(** Random bytes, and the identifiers [uuid4] makes of them:
    [73494747-e19e-4cdf-bc3b-c0f5b94af2e2] first, then
    [0b0f7a30-5d0c-4a52-9c56-1b7e3f6a2d11]. *)
Definition draws (n : nat) : N :=
  match n with
  | 0 => 0x73494747e19e4cdfbc3bc0f5b94af2e2
  | _ => 0x0b0f7a305d0c4a529c561b7e3f6a2d11
  end.

Definition ids (n : nat) : string := uuid_str (uuid4_int (draws n)).

(** A world that answers [list.example] with the list and any other URL
    with the error page, and that holds an older [gate.conf]. *)
Definition world : World :=
  {| net := λ u, if decide (u = "http://list.example/")
                 then Some ok_response else Some error_response;
     urandom := draws;
     uuid_drawn := 0;
     w_stdout := "";
     w_stderr := "";
     files := {[ "gate.conf" := "old" ]};
     locked := ∅ |}.

Definition to_stdout : Namespace :=
  mkNamespace "Identify please" "" "main" "http://list.example/".

Definition to_file : Namespace :=
  mkNamespace "Identify please" "gate.conf" "main" "http://list.example/".

Definition from_error : Namespace :=
  mkNamespace "Identify please" "" "main" "http://gone.example/".

End Sample.

(** ** Further sample worlds *)

Module Cases.
Import Py Requests IO Generator.

(** No server answers. *)
Definition offline : World :=
  {| net := λ _, None;
     urandom := Sample.draws;
     uuid_drawn := 0;
     w_stdout := "";
     w_stderr := "";
     files := {[ "gate.conf" := "old" ]};
     locked := ∅ |}.

(** The sample world with [gate.conf] write-protected. *)
Definition protected : World :=
  {| net := net Sample.world;
     urandom := Sample.draws;
     uuid_drawn := 0;
     w_stdout := "";
     w_stderr := "";
     files := {[ "gate.conf" := "old" ]};
     locked := {[ "gate.conf" ]} |}.

(** The error page into the protected file. *)
Definition error_to_file : Namespace :=
  mkNamespace "Identify please" "gate.conf" "main" "http://gone.example/".

(** The list without its empty line. *)
Definition plain_list : list string := ["1.2.3.4/32"; "5.6.7.8/24"].

(** The sample list from a server that declares no encoding. *)
Definition raw_response : Response :=
  mkResponse 200 (Raw [Sample.body] Sample.body).

(** A parent and a message that go on after a line feed. *)
Definition two_line_parent : Namespace :=
  mkNamespace "Identify please" ""
    ("main" +:+ dq +:+ nl +:+ "    allow=" +:+ dq +:+ "0.0.0.0/0")
    "http://list.example/".

Definition two_line_message : Namespace :=
  mkNamespace
    ("Identify" +:+ dq +:+ nl +:+ "    deny=" +:+ dq +:+ "0.0.0.0/0")
    "" "main" "http://list.example/".

(** A random source that gives the same sixteen bytes every time. *)
Definition stuck : World :=
  {| net := net Sample.world;
     urandom := λ _, Sample.draws 0;
     uuid_drawn := 0;
     w_stdout := "";
     w_stderr := "";
     files := ∅;
     locked := ∅ |}.

End Cases.

Import Py Requests IO Generator Text.

(** * Properties *)

(** ** The model at work *)

Example splitlines_blank_line :
  splitlines Sample.body = ["1.2.3.4/32"; ""; "5.6.7.8/24"].
Proof. reflexivity. Qed.

Example splitlines_crlf :
  splitlines ("1.2.3.4/32" +:+ String CR nl +:+ "5.6.7.8/24")
  = ["1.2.3.4/32"; "5.6.7.8/24"].
Proof. reflexivity. Qed.

Example splitlines_empty : splitlines "" = [] ∧ splitlines nl = [""].
Proof. by split. Qed.

(** A line cut by the chunk borders is put together again. *)
Example iter_lines_pending :
  iter_lines (mkResponse 200 ["1.2.3"; ".4/32" +:+ nl +:+ "5.6."; "7.8/24"])
  = ["1.2.3.4/32"; "5.6.7.8/24"].
Proof. reflexivity. Qed.

(** A chunk border between carriage return and line feed gives an empty
    line that the body does not have. *)
Example iter_lines_crlf_cut :
  iter_lines (mkResponse 200 ["1.2.3.4/32" +:+ String CR "";
                              nl +:+ "5.6.7.8/24"])
  = ["1.2.3.4/32"; ""; "5.6.7.8/24"].
Proof. reflexivity. Qed.

Example allow_deny_two :
  allow_deny ["1.2.3.4/32"; "5.6.7.8/24"]
  = (attr "allow" "1.2.3.4/32" +:+ nl +:+ attr "allow" "5.6.7.8/24",
     attr "deny" "1.2.3.4/32" +:+ nl +:+ attr "deny" "5.6.7.8/24").
Proof. reflexivity. Qed.

(** The run of the sample list to standard output. *)
Example run_to_stdout :
  main Sample.to_stdout Sample.world
  = (mkWorld (net Sample.world) Sample.draws 1
       (join nl
          ["# Authentication gate configuration auto-generated by inspircd-auth-gate-generator.py";
           "<connect name=" +:+ dq
             +:+ "auth-gate-73494747-e19e-4cdf-bc3b-c0f5b94af2e2" +:+ dq;
           attr "allow" "1.2.3.4/32"; attr "allow" ""; attr "allow" "5.6.7.8/24";
           attr "registered" "true"; attr "requireaccount" "yes";
           attr "parent" "main" +:+ ">";
           "<connect";
           attr "deny" "1.2.3.4/32"; attr "deny" ""; attr "deny" "5.6.7.8/24";
           attr "registered" "true";
           attr "reason" "Identify please" +:+ ">";
           ""])
       "" {[ "gate.conf" := "old" ]} ∅,
     Ok tt).
Proof. reflexivity. Qed.

(** The run to a file that cannot be opened. *)
Example run_locked :
  let w := mkWorld (net Sample.world) Sample.draws 0 "" ""
                   ∅ {[ "gate.conf" ]} in
  main Sample.to_file w
  = (mkWorld (net Sample.world) Sample.draws 1 "" "" ∅ {[ "gate.conf" ]},
     Raise OSError).
Proof. reflexivity. Qed.

(** The identifiers of the sample draws; the version and variant bits of
    other bytes are overwritten. *)
Example uuid_of_draws :
  Sample.ids 0 = "73494747-e19e-4cdf-bc3b-c0f5b94af2e2"
  ∧ Sample.ids 1 = "0b0f7a30-5d0c-4a52-9c56-1b7e3f6a2d11"
  ∧ uuid_str (uuid4_int 0) = "00000000-0000-4000-8000-000000000000"
  ∧ uuid_str (uuid4_int (2 ^ 128 - 1))
    = "ffffffff-ffff-4fff-bfff-ffffffffffff".
Proof. vm_compute. by repeat split. Qed.

(** The [repr] of bytes objects. *)
Example bytes_repr_samples :
  bytes_repr "1.2.3.4/32" = "b'1.2.3.4/32'"
  ∧ bytes_repr "" = "b''"
  ∧ bytes_repr ("it's" +:+ String "011" (String "255" ""))
    = String "b" (dq +:+ "it's\x0b\xff" +:+ dq)
  ∧ bytes_repr ("a'" +:+ dq +:+ String backslash "")
    = "b'a\'" +:+ dq +:+ "\\'".
Proof. vm_compute. by repeat split. Qed.

(** A body without declared encoding: the lines are bytes objects, cut at
    line feeds and carriage returns only, and shown by their [repr]. *)
Example iter_lines_raw :
  iter_lines Cases.raw_response
  = ["b'1.2.3.4/32'"; "b''"; "b'5.6.7.8/24'"]
  ∧ iter_lines (mkResponse 200 (Raw ["1.2.3" +:+ String "012" "4";
                                     nl +:+ "5"] "?"))
    = ["b'1.2.3\x0c4'"; "b'5'"].
Proof. vm_compute. by split. Qed.

(** The content as the iterator reads it when a chunk border cuts a line
    end: the cut end counts twice. *)
Example glue_cut :
  let cs := ["1.2.3.4/32" +:+ String CR ""; nl +:+ "5.6.7.8/24"] in
  glue cs = "1.2.3.4/32" +:+ String CR (String CR nl) +:+ "5.6.7.8/24"
  ∧ splitlines (glue cs) = iter_lines (mkResponse 200 cs)
  ∧ splitlines (foldr String.app "" cs) = ["1.2.3.4/32"; "5.6.7.8/24"].
Proof. by repeat split. Qed.

(** The allow block of the sample list from a server without encoding. *)
Example render_raw :
  (render Sample.to_stdout (iter_lines Cases.raw_response) (Sample.ids 0)).1
  = join nl
      ["<connect name=" +:+ dq
         +:+ "auth-gate-73494747-e19e-4cdf-bc3b-c0f5b94af2e2" +:+ dq;
       attr "allow" "b'1.2.3.4/32'"; attr "allow" "b''";
       attr "allow" "b'5.6.7.8/24'";
       attr "registered" "true"; attr "requireaccount" "yes";
       attr "parent" "main" +:+ ">"].
Proof. reflexivity. Qed.

(** ** Strings *)

Section strings.
Implicit Types s t u : string.

Lemma sapp_cons c s t : String c s +:+ t = String c (s +:+ t).
Proof. done. Qed.

Lemma sapp_nil_l s : "" +:+ s = s.
Proof. done. Qed.

Lemma sapp_assoc s t u : (s +:+ t) +:+ u = s +:+ t +:+ u.
Proof. induction s as [|c s IH]; [done|]. by rewrite !sapp_cons, IH. Qed.

Lemma sapp_nil_r s : s +:+ "" = s.
Proof. induction s as [|c s IH]; [done|]. by rewrite sapp_cons, IH. Qed.

Lemma lf_free_app s t : lf_free (s +:+ t) = lf_free s && lf_free t.
Proof.
  induction s as [|c s IH]; [done|].
  rewrite sapp_cons. cbn. rewrite IH. by rewrite andb_assoc.
Qed.

Lemma lb_free_app br s t :
  lb_free br (s +:+ t) = lb_free br s && lb_free br t.
Proof.
  induction s as [|c s IH]; [done|].
  rewrite sapp_cons. cbn. rewrite IH. by rewrite andb_assoc.
Qed.

Lemma lb_free_lf_free br s : br LF = true → lb_free br s → lf_free s.
Proof.
  intros Hbr. induction s as [|c s IH]; [done|]. cbn.
  intros [Hc Hs]%andb_prop_elim. apply andb_prop_intro. split; [|auto].
  destruct (Ascii.eqb_spec c LF) as [->|]; [|done]. by rewrite Hbr in Hc.
Qed.

End strings.

(** Brings both sides of an equation between concatenations into
    right-nested form. *)
Ltac snorm :=
  unfold attr, attr_open; rewrite ?sapp_assoc; try reflexivity.

(** ** The loop that builds [allow] and [deny] *)

Section loop.

(** The loop from index [i] on, entered with [allow = a] and [deny = d]:
    it appends the attribute lines of the remaining entries, joined by
    line feeds. *)
Lemma loop_from (l : list string) (i n : nat) (a d : string) :
  n = i + length l →
  fold_left (loop_body n) (enumerate_from i l) (a, d)
  = (a +:+ join nl (map (attr "allow") l),
     d +:+ join nl (map (attr "deny") l)).
Proof.
  revert i a d. induction l as [|x l IH]; intros i a d Hn.
  - cbn. by rewrite !sapp_nil_r.
  - destruct l as [|y l].
    + cbn. replace (Z.of_nat i <? Z.of_nat n - 1)%Z with false; [done|].
      symmetry. apply Z.ltb_ge. cbn in Hn. lia.
    + change (enumerate_from i (x :: y :: l))
        with ((i, x) :: enumerate_from (S i) (y :: l)).
      cbn [fold_left]. unfold loop_body at 2.
      replace (Z.of_nat i <? Z.of_nat n - 1)%Z with true.
      2:{ symmetry. apply Z.ltb_lt. cbn in Hn. lia. }
      rewrite IH by (cbn in *; lia).
      change (map ?f (x :: ?r)) with (f x :: map f r).
      change (join nl (?u :: map ?f (y :: l)))
        with (u +:+ nl +:+ join nl (map f (y :: l))).
      by snorm.
Qed.

Lemma allow_deny_join (ips : list string) :
  allow_deny ips
  = (join nl (map (attr "allow") ips), join nl (map (attr "deny") ips)).
Proof. unfold allow_deny, enumerate. by rewrite (loop_from ips 0). Qed.

Lemma join_cons (x : string) (l : list string) :
  l ≠ [] → join nl (x :: l) = x +:+ nl +:+ join nl l.
Proof. by destruct l. Qed.

Lemma join_app (l k : list string) :
  l ≠ [] → k ≠ [] → join nl (l ++ k) = join nl l +:+ nl +:+ join nl k.
Proof.
  intros Hl Hk. induction l as [|x l IH]; [done|].
  destruct l as [|y l].
  - cbn [app]. by rewrite join_cons.
  - rewrite <-app_comm_cons, !join_cons by done.
    rewrite IH by done. by rewrite !sapp_assoc.
Qed.

(** The two blocks of a non-empty list, line by line. *)
Lemma render_lines (args : Namespace) (ips : list string) (uuid : string) :
  ips ≠ [] →
  render args ips uuid
  = (join nl (allow_lines uuid ips (parent args)),
     join nl (deny_lines ips (message args))).
Proof.
  intros Hne. unfold render. rewrite allow_deny_join.
  unfold allow_lines, deny_lines, allow_block, deny_block, class_name.
  assert (Hm : ∀ k, map (attr k) ips ≠ []) by (by destruct ips).
  cbn [app]. f_equal.
  - rewrite join_cons by (by destruct ips).
    rewrite join_app by done.
    cbn [join]. by snorm.
  - rewrite join_cons by (by destruct ips).
    rewrite join_app by done.
    cbn [join]. by snorm.
Qed.

End loop.

(** ** Lines and attribute lines *)

Section lines.
Implicit Types s t : string.

Lemma split_nl_app s t :
  lf_free s → split_nl (s +:+ nl +:+ t) = s :: split_nl t.
Proof.
  induction s as [|c s IH]; [done|].
  cbn [lf_free]. intros [Hc Hs]%andb_prop_elim.
  rewrite sapp_cons. cbn [split_nl].
  destruct (Ascii.eqb c LF); [done|]. by rewrite IH.
Qed.

Lemma split_nl_lf_free s : lf_free s → split_nl s = [s].
Proof.
  induction s as [|c s IH]; [done|].
  cbn [lf_free split_nl]. intros [Hc Hs]%andb_prop_elim.
  destruct (Ascii.eqb c LF); [done|]. by rewrite IH.
Qed.

Lemma split_nl_join (ls : list string) :
  ls ≠ [] → Forall (λ s, lf_free s) ls → split_nl (join nl ls) = ls.
Proof.
  intros Hne Hall. induction Hall as [|x l Hx Hl IH]; [done|].
  destruct l as [|y l].
  - by apply split_nl_lf_free.
  - rewrite join_cons by done. rewrite split_nl_app by done.
    by rewrite IH.
Qed.

Lemma prefix_app s t : String.prefix s (s +:+ t) = true.
Proof.
  induction s as [|c s IH]; [by destruct t|].
  rewrite sapp_cons. cbn. by destruct (ascii_dec c c).
Qed.

Lemma strip_prefix_app s t : strip_prefix s (s +:+ t) = Some t.
Proof.
  induction s as [|c s IH]; [by destruct t|].
  rewrite sapp_cons. cbn. by rewrite Ascii.eqb_refl.
Qed.

Lemma strip_quote_app s : strip_quote (s +:+ dq) = Some s.
Proof.
  induction s as [|c s IH]; [done|].
  rewrite sapp_cons. cbn [strip_quote]. rewrite IH.
  by destruct s.
Qed.

Lemma entry_value_attr key value :
  entry_value key (attr key value) = Some value.
Proof.
  unfold entry_value.
  replace (attr key value) with (attr_open key +:+ value +:+ dq) by by snorm.
  rewrite strip_prefix_app. apply strip_quote_app.
Qed.

Lemma prefix_attr key value :
  String.prefix (attr_open key) (attr key value) = true.
Proof.
  replace (attr key value) with (attr_open key +:+ value +:+ dq) by by snorm.
  apply prefix_app.
Qed.

Lemma filter_attrs key (ips : list string) :
  List.filter (String.prefix (attr_open key)) (map (attr key) ips)
  = map (attr key) ips.
Proof.
  induction ips as [|x l IH]; [done|].
  cbn [map List.filter]. by rewrite prefix_attr, IH.
Qed.

Lemma lf_free_attr key value :
  lf_free key → lf_free value → lf_free (attr key value).
Proof.
  intros Hk Hv. unfold attr. rewrite !lf_free_app.
  rewrite (Is_true_true_1 _ Hk), (Is_true_true_1 _ Hv). done.
Qed.

Lemma Forall_lf_free_attrs key (ips : list string) :
  lf_free key → Forall (λ s, lf_free s) ips →
  Forall (λ s, lf_free s) (map (attr key) ips).
Proof.
  intros Hk Hall. apply Forall_fmap.
  eapply Forall_impl; [done|]. intros x Hx. by apply lf_free_attr.
Qed.

End lines.

(** The attribute lines of the two blocks are those of the entries, in
    the order of the list, whether the list is empty or not. *)
Section entries.
Variables (args : Namespace) (ips : list string) (uuid : string).
Hypothesis Hips : Forall (λ s, lf_free s) ips.

Lemma allow_entry_lines :
  lf_free uuid → lf_free (parent args) →
  entry_lines "allow" (render args ips uuid).1 = map (attr "allow") ips.
Proof.
  intros Hu Hp. unfold entry_lines. destruct ips as [|x l] eqn:E.
  - unfold render, allow_block, class_name.
    vm_compute allow_deny. cbv beta iota. cbn [fst map].
    replace (_ +:+ _)
      with (("<connect name=" +:+ dq +:+ "auth-gate-" +:+ uuid +:+ dq)
            +:+ nl +:+ "" +:+ nl +:+ attr "registered" "true"
            +:+ nl +:+ attr "requireaccount" "yes"
            +:+ nl +:+ attr "parent" (parent args) +:+ ">") by by snorm.
    rewrite split_nl_app.
    2:{ rewrite !lf_free_app, (Is_true_true_1 _ Hu). done. }
    rewrite split_nl_app, split_nl_app, split_nl_app by done.
    rewrite split_nl_lf_free.
    2:{ unfold attr. rewrite !lf_free_app, (Is_true_true_1 _ Hp). done. }
    reflexivity.
  - rewrite <-E in *. rewrite render_lines by (by rewrite E). cbn [fst].
    rewrite split_nl_join.
    + unfold allow_lines. rewrite !List.filter_app, filter_attrs.
      change (List.filter _ [_]) with (@nil string).
      change (List.filter _ [_; _; _]) with (@nil string).
      by rewrite app_nil_r.
    + by rewrite E.
    + unfold allow_lines. repeat apply Forall_app_2.
      * apply Forall_singleton.
        rewrite !lf_free_app, (Is_true_true_1 _ Hu). done.
      * by apply Forall_lf_free_attrs.
      * repeat apply Forall_cons_2; try done.
        unfold attr. rewrite !lf_free_app, (Is_true_true_1 _ Hp). done.
Qed.

Lemma deny_entry_lines :
  lf_free (message args) →
  entry_lines "deny" (render args ips uuid).2 = map (attr "deny") ips.
Proof.
  intros Hm. unfold entry_lines. destruct ips as [|x l] eqn:E.
  - unfold render, deny_block.
    vm_compute allow_deny. cbv beta iota. cbn [snd map].
    replace (_ +:+ _)
      with ("<connect" +:+ nl +:+ "" +:+ nl +:+ attr "registered" "true"
            +:+ nl +:+ attr "reason" (message args) +:+ ">") by by snorm.
    rewrite split_nl_app, split_nl_app, split_nl_app by done.
    rewrite split_nl_lf_free.
    2:{ unfold attr. rewrite !lf_free_app, (Is_true_true_1 _ Hm). done. }
    reflexivity.
  - rewrite <-E in *. rewrite render_lines by (by rewrite E). cbn [snd].
    rewrite split_nl_join.
    + unfold deny_lines. rewrite !List.filter_app, filter_attrs.
      change (List.filter _ [_]) with (@nil string).
      change (List.filter _ [_; _]) with (@nil string).
      by rewrite app_nil_r.
    + by rewrite E.
    + unfold deny_lines. repeat apply Forall_app_2.
      * by apply Forall_singleton.
      * by apply Forall_lf_free_attrs.
      * repeat apply Forall_cons_2; try done.
        unfold attr. rewrite !lf_free_app, (Is_true_true_1 _ Hm). done.
Qed.

End entries.

(** ** Reading lines from the response *)

Section splitlines.
Variable br : ascii → bool.
Hypothesis br_LF : br LF = true.
Hypothesis br_CR : br CR = true.
Implicit Types s t cur : string.

(** Induction on the length of a string: [splitlines] may step over two
    characters at once. *)
Lemma string_lt_ind (P : string → Prop) :
  (∀ s, (∀ t, String.length t < String.length s → P t) → P s) → ∀ s, P s.
Proof.
  intros H s. remember (String.length s) as n eqn:Hn.
  revert s Hn. induction (lt_wf n) as [n _ IH]. intros s ->.
  apply H. intros t Ht. by apply (IH (String.length t)).
Qed.

Lemma last_char_app s t : truthy t → last_char (s +:+ t) = last_char t.
Proof.
  intros Ht. induction s as [|c s IH]; [done|].
  rewrite sapp_cons. cbn [last_char]. rewrite IH.
  destruct (s +:+ t) eqn:E; [|done].
  destruct s; [|done]. by destruct t.
Qed.

Lemma last_char_truthy s : truthy s → is_Some (last_char s).
Proof.
  induction s as [|c s IH]; [done|]. intros _.
  destruct s; [by eexists|]. by apply IH.
Qed.

Lemma last_char_lb_free s c : lb_free br s → last_char s = Some c → ¬ br c.
Proof.
  induction s as [|a s IH]; [done|].
  cbn [lb_free]. intros [Ha Hs]%andb_prop_elim.
  destruct s as [|b s].
  - intros [= <-]. by apply negb_prop_elim.
  - intros H. by apply IH.
Qed.

Lemma splitlines_go_cons cur c s :
  splitlines_go br cur (String c s)
  = if br c then
      match s with
      | String c' s'' =>
          if Ascii.eqb c CR && Ascii.eqb c' LF
          then cur :: splitlines_go br "" s''
          else cur :: splitlines_go br "" s
      | "" => cur :: splitlines_go br "" s
      end
    else splitlines_go br (cur +:+ String c "") s.
Proof. done. Qed.

(** Characters that are not line breaks move from the text into the line
    being read. *)
Lemma splitlines_go_app cur s t :
  lb_free br s → splitlines_go br cur (s +:+ t) = splitlines_go br (cur +:+ s) t.
Proof.
  revert cur. induction s as [|c s IH]; intros cur.
  - by rewrite sapp_nil_r.
  - cbn [lb_free]. intros [Hc Hs]%andb_prop_elim.
    rewrite sapp_cons. cbn [splitlines_go].
    destruct (br c); [done|].
    rewrite IH by done. by rewrite sapp_assoc.
Qed.

(** [splitlines] gives the completed lines, then the unfinished one. *)
Lemma splitlines_go_scan s : ∀ cur,
  splitlines_go br cur s = (scan br cur s).1 ++ open_line (scan br cur s).2.
Proof.
  induction s as [s IH] using string_lt_ind. intros cur.
  destruct s as [|c s]; [by destruct cur|].
  cbn [splitlines_go scan]. destruct (br c).
  - destruct s as [|c' s]; [done|].
    destruct (Ascii.eqb c CR && Ascii.eqb c' LF); cbn [fst snd];
      rewrite IH by (cbn; lia); done.
  - apply IH. cbn; lia.
Qed.

(** The unfinished line holds no line break. *)
Lemma scan_lb_free s : ∀ cur, lb_free br cur → lb_free br (scan br cur s).2.
Proof.
  induction s as [s IH] using string_lt_ind. intros cur Hcur.
  destruct s as [|c s]; [done|].
  cbn [scan]. destruct (br c) eqn:Hc.
  - destruct s as [|c' s]; [done|].
    destruct (Ascii.eqb c CR && Ascii.eqb c' LF); cbn [snd];
      apply IH; (cbn; lia) || done.
  - apply IH; [cbn; lia|].
    rewrite lb_free_app. cbn. rewrite Hc. cbn. by destruct (lb_free br cur).
Qed.

Lemma scan_lines_lb_free s : ∀ cur,
  lb_free br cur → Forall (λ l, lb_free br l) (scan br cur s).1.
Proof.
  induction s as [s IH] using string_lt_ind. intros cur Hcur.
  destruct s as [|c s]; [by constructor|].
  cbn [scan]. destruct (br c) eqn:Hc.
  - destruct s as [|c' s]; [by repeat constructor|].
    destruct (Ascii.eqb c CR && Ascii.eqb c' LF); cbn [fst];
      (constructor; [done|apply IH; (cbn; lia) || done]).
  - apply IH; [cbn; lia|].
    rewrite lb_free_app. cbn. rewrite Hc. cbn. by destruct (lb_free br cur).
Qed.

(** The unfinished line is what follows the last line break. *)
Lemma scan_suffix s : ∀ cur,
  ∃ pre, cur +:+ s = pre +:+ (scan br cur s).2
         ∧ (pre = "" ∨ ∃ c, last_char pre = Some c ∧ br c).
Proof.
  induction s as [s IH] using string_lt_ind. intros cur.
  destruct s as [|c s].
  - exists "". split; [by rewrite sapp_nil_r|by left].
  - cbn [scan]. destruct (br c) eqn:Hc.
    + destruct s as [|c' s].
      * exists (cur +:+ String c ""). cbn [snd]. split; [by rewrite sapp_nil_r|].
        right. exists c. rewrite last_char_app by done. by rewrite Hc.
      * destruct (Ascii.eqb c CR && Ascii.eqb c' LF) eqn:Hcr; cbn [snd].
        -- destruct (IH s ltac:(cbn; lia) "") as (pre & Heq & Hpre).
           exists (cur +:+ String c (String c' pre)). split.
           { rewrite sapp_assoc, !sapp_cons. rewrite <-Heq. done. }
           right. rewrite last_char_app by done.
           apply andb_prop in Hcr as [_ Hlf].
           apply Ascii.eqb_eq in Hlf as ->.
           destruct Hpre as [->|(x & Hx & Hbx)].
           { exists LF. split; [done|by rewrite br_LF]. }
           exists x. split; [|done].
           change (String c (String LF pre))
             with ((String c (String LF "")) +:+ pre).
           rewrite last_char_app; [done|]. by destruct pre.
        -- destruct (IH (String c' s) ltac:(cbn; lia) "") as (pre & Heq & Hpre).
           exists (cur +:+ String c pre). split.
           { rewrite sapp_assoc, !sapp_cons. rewrite <-Heq. done. }
           right. rewrite last_char_app by done.
           destruct Hpre as [->|(x & Hx & Hbx)].
           { exists c. by rewrite Hc. }
           exists x. split; [|done].
           change (String c pre) with ((String c "") +:+ pre).
           rewrite last_char_app; [done|]. by destruct pre.
    + destruct (IH s ltac:(cbn; lia) (cur +:+ String c "")) as (pre & Heq & Hpre).
      exists pre. split; [|done]. rewrite <-Heq. by rewrite sapp_assoc.
Qed.

(** ** The line iterator of the response *)

Implicit Types chunk : string.

(** A round of the iterator yields the lines completed in the chunk (with
    the pending text before it) and keeps the unfinished line pending. *)
Lemma iter_lines_step_scan (pending : option string) chunk :
  let chunk' := from_option (λ p, p +:+ chunk) chunk pending in
  iter_lines_step br pending chunk
  = ((scan br "" chunk').1, open_pending (scan br "" chunk').2).
Proof.
  intros chunk'. unfold iter_lines_step.
  replace (match pending with Some p => p +:+ chunk | None => chunk end)
    with chunk' by (by destruct pending).
  rewrite splitlines_go_scan.
  destruct (scan_suffix chunk' "") as (pre & Heq & Hpre).
  rewrite sapp_nil_l in Heq.
  pose proof (scan_lines_lb_free chunk' "" I) as Hls.
  destruct (scan br "" chunk') as [ls r]. cbn [fst snd] in *.
  unfold open_line, open_pending. destruct (truthy r) eqn:Hr.
  - rewrite last_snoc. rewrite Hr. cbn [andb].
    assert (truthy chunk' = true) as ->.
    { rewrite Heq. destruct pre; [done|]. done. }
    rewrite bool_decide_true.
    2:{ rewrite Heq. rewrite last_char_app; [done|by rewrite Hr]. }
    cbn [andb]. by rewrite removelast_last.
  - rewrite app_nil_r. destruct (last ls) as [l|] eqn:Hl; [|done].
    destruct (truthy l && truthy chunk'
              && bool_decide (last_char l = last_char chunk')) eqn:Hc; [|done].
    exfalso. apply andb_prop in Hc as [[Htl Htc]%andb_prop Heqc].
    apply bool_decide_eq_true in Heqc.
    assert (r = "") as -> by (by destruct r).
    rewrite sapp_nil_r in Heq. subst chunk'. rewrite Heq in *.
    destruct Hpre as [->|(c & Hc & Hb)]; [done|].
    apply last_Some_elem_of in Hl.
    rewrite Forall_forall in Hls. specialize (Hls l Hl).
    rewrite Hc in Heqc. by apply (last_char_lb_free l c).
Qed.


Lemma open_pending_ok cur s : lb_free br cur → pending_ok br (open_pending (scan br cur s).2).
Proof.
  intros Hcur p. unfold open_pending.
  destruct (truthy (scan br cur s).2) eqn:Hr; [|done].
  intros [= <-]. split; [by rewrite Hr|]. by apply scan_lb_free.
Qed.

Lemma from_open_pending r : default "" (open_pending r) = r.
Proof. by destruct r. Qed.


(** No line yielded holds a line break. *)
Lemma iter_lines_go_lb_free (cs : list string) : ∀ pending,
  pending_ok br pending → Forall (λ l, lb_free br l) (iter_lines_go br pending cs).
Proof.
  induction cs as [|c cs IH]; intros pending Hp.
  - cbn. destruct pending as [p|]; [|done].
    constructor; [|done]. by apply Hp.
  - cbn [iter_lines_go]. rewrite iter_lines_step_scan. cbv zeta.
    apply Forall_app_2.
    + by apply scan_lines_lb_free.
    + apply IH. by apply open_pending_ok.
Qed.

Lemma pending_ok_None : pending_ok br None.
Proof. by intros p. Qed.

(** A body that arrives in one chunk is split as [splitlines] does. *)
Lemma iter_lines_one_chunk (body : string) :
  iter_lines_go br None [body] = splitlines_go br "" body.
Proof.
  cbn [iter_lines_go].
  rewrite iter_lines_step_scan. cbn [from_option].
  rewrite splitlines_go_scan.
  unfold open_pending, open_line. by destruct (truthy _).
Qed.

(** *** Exact lines *)

Lemma last_char_cons c s x :
  last_char s = Some x → last_char (String c s) = Some x.
Proof. by destruct s. Qed.

(** Reading on after [s] when no line end is cut between [s] and [t]. *)
Lemma splitlines_go_resume_exact s : ∀ cur t,
  ¬ (last_char s = Some CR ∧ starts_with_lf t) →
  splitlines_go br cur (s +:+ t)
  = (scan br cur s).1 ++ splitlines_go br (scan br cur s).2 t.
Proof.
  induction s as [s IH] using string_lt_ind. intros cur t Hcut.
  destruct s as [|c s]; [done|].
  rewrite sapp_cons, splitlines_go_cons. cbn [scan].
  destruct (br c) eqn:Hc.
  - destruct s as [|c' s].
    + rewrite sapp_nil_l. cbn [fst snd app].
      destruct t as [|c' t]; [done|].
      destruct (Ascii.eqb c CR && Ascii.eqb c' LF) eqn:Hcr; [|done].
      exfalso. apply Hcut. apply andb_prop in Hcr as [H1 H2].
      apply Ascii.eqb_eq in H1 as ->. cbn [last_char starts_with_lf].
      by rewrite H2.
    + rewrite sapp_cons.
      destruct (Ascii.eqb c CR && Ascii.eqb c' LF); cbn [fst snd].
      * rewrite IH; [done|cbn; lia|].
        intros [Hl Ht]. apply Hcut. split; [|done].
        by apply last_char_cons, last_char_cons.
      * rewrite <-sapp_cons, IH; [done|cbn; lia|].
        intros [Hl Ht]. apply Hcut. split; [|done].
        by apply last_char_cons.
  - apply IH; [cbn; lia|].
    intros [Hl Ht]. apply Hcut. split; [|done]. by apply last_char_cons.
Qed.

(** After a text that ends with a line break no line is unfinished. *)
Lemma scan_after_break s c cur :
  lb_free br cur → last_char s = Some c → br c → (scan br cur s).2 = "".
Proof.
  intros Hcur Hl Hc.
  destruct (scan_suffix s cur) as (pre & Heq & _).
  pose proof (scan_lb_free s cur Hcur) as Hr.
  destruct (scan br cur s).2 as [|a r] eqn:E; [done|]. exfalso.
  assert (Hs : truthy s) by (by destruct s).
  assert (Hlast : last_char (String a r) = Some c).
  { rewrite <-(last_char_app pre) by done. rewrite <-Heq.
    by rewrite last_char_app. }
  by apply (last_char_lb_free _ c Hr Hlast).
Qed.

Lemma starts_with_lf_glue (cs : list string) :
  starts_with_lf (glue cs) = starts_with_lf (foldr String.app "" cs).
Proof.
  induction cs as [|c cs IH]; [done|].
  cbn [glue foldr]. destruct c as [|a c]; [|done].
  cbn [last_char]. rewrite bool_decide_false by done. exact IH.
Qed.

Lemma glue_no_cut (cs : list string) :
  crlf_cut cs = false → glue cs = foldr String.app "" cs.
Proof.
  induction cs as [|c cs IH]; [done|].
  cbn [crlf_cut glue foldr]. intros [-> Hrest]%orb_false_elim.
  by rewrite IH.
Qed.

(** The iterator yields the lines of the chunks put together, where a line
    end cut by a chunk border counts as two. *)
Lemma iter_lines_go_glue (cs : list string) : ∀ pending,
  pending_ok br pending →
  iter_lines_go br pending cs
  = splitlines_go br (default "" pending) (glue cs).
Proof.
  induction cs as [|c cs IH]; intros pending Hp.
  - cbn [iter_lines_go glue]. destruct pending as [p|]; [|done].
    destruct (Hp p eq_refl) as [Ht _]. cbn [default splitlines_go].
    by destruct p.
  - cbn [iter_lines_go glue]. rewrite iter_lines_step_scan. cbv zeta.
    set (chunk' := from_option _ _ _).
    rewrite IH by (by apply open_pending_ok).
    rewrite from_open_pending.
    assert (Hlast : last_char chunk' = Some CR → last_char c = Some CR).
    { subst chunk'. destruct pending as [p|]; cbn [from_option]; [|done].
      destruct (Hp p eq_refl) as [Htp Hlb]. intros Hl.
      destruct c as [|a c].
      - rewrite sapp_nil_r in Hl. exfalso.
        apply (last_char_lb_free p CR Hlb Hl). by rewrite br_CR.
      - by rewrite last_char_app in Hl. }
    assert (Hgo : ∀ t, splitlines_go br (default "" pending) (c +:+ t)
                       = splitlines_go br "" (chunk' +:+ t)).
    { intros t. subst chunk'.
      destruct pending as [p|]; cbn [from_option default]; [|done].
      destruct (Hp p eq_refl) as [_ Hlb].
      by rewrite sapp_assoc, (splitlines_go_app "" p). }
    rewrite Hgo.
    destruct (bool_decide (last_char c = Some CR)
              && starts_with_lf (foldr String.app "" cs)) eqn:Hcut.
    + apply andb_prop in Hcut as [Hcr Hlf].
      apply bool_decide_eq_true in Hcr.
      rewrite <-starts_with_lf_glue in Hlf.
      rewrite splitlines_go_resume_exact by (by intros [_ ?]).
      assert (Hr : (scan br "" chunk').2 = "").
      { apply (scan_after_break chunk' CR); [done| |by rewrite br_CR].
        subst chunk'. destruct pending as [p|]; cbn [from_option]; [|done].
        rewrite last_char_app; [done|by destruct c]. }
      rewrite Hr. f_equal.
      destruct (glue cs) as [|a g]; [done|].
      cbn [starts_with_lf] in Hlf. apply Ascii.eqb_eq in Hlf as ->.
      rewrite sapp_cons, sapp_nil_l, !splitlines_go_cons, br_CR, br_LF.
      rewrite Ascii.eqb_refl. cbn [andb].
      by destruct g.
    + rewrite sapp_nil_l. symmetry. apply splitlines_go_resume_exact.
      intros [Hl Ht]. rewrite starts_with_lf_glue in Ht.
      rewrite (Is_true_true_1 _ Ht), andb_true_r in Hcut.
      apply bool_decide_eq_false in Hcut. by apply Hcut, Hlast.
Qed.

(** Without a cut line end the iterator yields the lines of the text of
    the chunks, read with the pending text before it. *)
Lemma iter_lines_go_exact (cs : list string) : ∀ pending,
  pending_ok br pending → crlf_cut cs = false →
  iter_lines_go br pending cs
  = splitlines_go br (default "" pending) (foldr String.app "" cs).
Proof.
  intros pending Hp Hcut. rewrite iter_lines_go_glue by done.
  by rewrite glue_no_cut.
Qed.

End splitlines.

(** ** Identifiers and the repr of bytes *)

Section identifiers.
Implicit Types s t : string.

Lemma hex_digit_cases (P : ascii → Prop) (d : N) :
  Forall P hex_digits → P "?"%char → P (hex_digit d).
Proof.
  intros Hall Hq. unfold hex_digit.
  destruct (hex_digits !! N.to_nat d) as [c|] eqn:E; [|done].
  cbn [default]. rewrite Forall_forall in Hall.
  apply Hall. by eapply list_elem_of_lookup_2.
Qed.

Lemma hex_digit_not_lf (d : N) : Ascii.eqb (hex_digit d) LF = false.
Proof. apply hex_digit_cases; [by repeat constructor|done]. Qed.

Lemma lf_free_hex_fixed (k : nat) : ∀ n, lf_free (hex_fixed k n).
Proof.
  induction k as [|k IH]; intros n; [done|].
  cbn [hex_fixed]. rewrite lf_free_app. cbn [lf_free].
  rewrite hex_digit_not_lf. cbn. rewrite andb_true_r. apply IH.
Qed.

Lemma length_sapp s t :
  String.length (s +:+ t) = String.length s + String.length t.
Proof. induction s as [|c s IH]; [done|]. rewrite sapp_cons. cbn. by rewrite IH. Qed.

Lemma length_hex_fixed (k : nat) : ∀ n, String.length (hex_fixed k n) = k.
Proof.
  induction k as [|k IH]; intros n; [done|].
  cbn [hex_fixed]. rewrite length_sapp, IH. cbn. lia.
Qed.

Lemma lf_free_substring (n m : nat) s :
  lf_free s → lf_free (String.substring n m s).
Proof.
  revert n m. induction s as [|c s IH]; intros n m Hs.
  - by destruct n, m.
  - cbn [lf_free] in Hs. apply andb_prop_elim in Hs as [Hc Hs].
    destruct n as [|n]; [destruct m as [|m]; [done|]|]; cbn [String.substring].
    + cbn [lf_free]. apply andb_prop_intro. split; [done|]. by apply IH.
    + by apply IH.
Qed.

(** The text of a UUID holds no line feed. *)
Lemma uuid_str_lf_free (i : N) : lf_free (uuid_str i).
Proof.
  unfold uuid_str. cbv zeta.
  pose proof (lf_free_hex_fixed 32 i) as Hh.
  generalize dependent (hex_fixed 32 i). intros h Hh.
  rewrite !lf_free_app.
  repeat (apply andb_prop_intro; split);
    try done; by apply lf_free_substring.
Qed.

Lemma hex_digit_inj (a b : N) :
  (a < 16)%N → (b < 16)%N → hex_digit a = hex_digit b → a = b.
Proof.
  intros Ha Hb. unfold hex_digit.
  assert (Hla : N.to_nat a < length hex_digits) by (cbn; lia).
  assert (Hlb : N.to_nat b < length hex_digits) by (cbn; lia).
  destruct (lookup_lt_is_Some_2 _ _ Hla) as [x Hx].
  destruct (lookup_lt_is_Some_2 _ _ Hlb) as [y Hy].
  rewrite Hx, Hy. cbn. intros ->.
  assert (Hnd : NoDup hex_digits).
  { apply (bool_decide_unpack (NoDup hex_digits)). by vm_compute. }
  apply N2Nat.inj. by eapply NoDup_lookup.
Qed.

Lemma sapp_snoc_inj s t (a b : ascii) :
  s +:+ String a "" = t +:+ String b "" → s = t ∧ a = b.
Proof.
  revert t. induction s as [|c s IH]; intros [|d t] H.
  - by injection H.
  - rewrite sapp_cons in H. cbn in H. injection H as _ H. by destruct t.
  - rewrite sapp_cons in H. cbn in H. injection H as _ H. by destruct s.
  - rewrite !sapp_cons in H. injection H as -> H.
    destruct (IH _ H) as [-> ->]. done.
Qed.

Lemma hex_fixed_inj (k : nat) : ∀ n m,
  hex_fixed k n = hex_fixed k m →
  (n mod 16 ^ N.of_nat k = m mod 16 ^ N.of_nat k)%N.
Proof.
  induction k as [|k IH]; intros n m H.
  - cbn. by rewrite !N.mod_1_r.
  - cbn [hex_fixed] in H. apply sapp_snoc_inj in H as [H Hd].
    apply hex_digit_inj in Hd; [|by apply N.mod_lt..].
    apply IH in H.
    rewrite Nat2N.inj_succ, N.pow_succ_r'.
    rewrite !N.Div0.mod_mul_r. by rewrite H, Hd.
Qed.

(** Two numbers below the 128th power of two with the same text as UUID
    are equal. *)
Lemma uuid_str_inj (i j : N) :
  (i < 2 ^ 128)%N → (j < 2 ^ 128)%N → uuid_str i = uuid_str j → i = j.
Proof.
  intros Hi Hj H.
  assert (Hh : hex_fixed 32 i = hex_fixed 32 j).
  { unfold uuid_str in H. cbv zeta in H.
    pose proof (length_hex_fixed 32 i) as Li.
    pose proof (length_hex_fixed 32 j) as Lj.
    destruct (hex_fixed 32 i) as [|a0 h]; [done|].
    destruct (hex_fixed 32 j) as [|b0 g]; [done|].
    do 31 (destruct h as [|? h]; [done|]). destruct h; [|done].
    do 31 (destruct g as [|? g]; [done|]). destruct g; [|done].
    vm_compute in H. by simplify_eq. }
  apply hex_fixed_inj in Hh.
  change (16 ^ N.of_nat 32)%N with (2 ^ 128)%N in Hh.
  by rewrite !N.mod_small in Hh.
Qed.

Lemma log2_lt_pow2 (a n : N) : (0 < n)%N → (a < 2 ^ n)%N ↔ (N.log2 a < n)%N.
Proof.
  intros Hn. destruct (N.eq_0_gt_0_cases a) as [->|Ha].
  - cbn. split; [done|]. intros _. by apply N.neq_0_lt_0, N.pow_nonzero.
  - by apply N.log2_lt_pow2.
Qed.

(** The number of a UUID is below the 128th power of two. *)
Lemma uuid4_int_lt (r : N) : (r < 2 ^ 128)%N → (uuid4_int r < 2 ^ 128)%N.
Proof.
  intros Hr. unfold uuid4_int. cbv zeta.
  apply log2_lt_pow2; [done|]. rewrite N.log2_lor.
  apply N.max_lub_lt; [|by vm_compute].
  apply log2_lt_pow2; [done|].
  eapply N.le_lt_trans; [apply N.ldiff_le_l|].
  apply log2_lt_pow2; [done|]. rewrite N.log2_lor.
  apply N.max_lub_lt; [|by vm_compute].
  apply log2_lt_pow2; [done|].
  eapply N.le_lt_trans; [apply N.ldiff_le_l|]. done.
Qed.

Lemma repr_byte_lf_free (q c : ascii) :
  q = squote ∨ q = "034"%char → lf_free (repr_byte q c).
Proof.
  intros Hq. unfold repr_byte.
  destruct (Ascii.eqb c q || Ascii.eqb c backslash) eqn:E1.
  { cbn. apply orb_prop in E1 as [E|E]; apply Ascii.eqb_eq in E as ->;
      [|done]. by destruct Hq as [->| ->]. }
  destruct (Ascii.eqb c "009"); [done|].
  destruct (Ascii.eqb c LF) eqn:E2; [done|].
  destruct (Ascii.eqb c CR); [done|].
  destruct ((N_of_ascii c <? 32)%N || _).
  - cbn [lf_free]. by rewrite !hex_digit_not_lf.
  - cbn [lf_free]. by rewrite E2.
Qed.

(** The repr of a bytes object holds no line feed. *)
Lemma bytes_repr_lf_free (b : string) : lf_free (bytes_repr b).
Proof.
  unfold bytes_repr. cbv zeta.
  assert (Hq : repr_quote b = squote ∨ repr_quote b = "034"%char).
  { unfold repr_quote. destruct (_ && _); auto. }
  set (q := repr_quote b) in *. clearbody q.
  cbn [lf_free]. rewrite lf_free_app.
  assert (Hgo : lf_free (repr_bytes_go q b)).
  { induction b as [|c b IH]; [done|].
    cbn [repr_bytes_go]. rewrite lf_free_app.
    apply andb_prop_intro. split; [by apply repr_byte_lf_free|done]. }
  rewrite (Is_true_true_1 _ Hgo). cbn.
  by destruct Hq as [->| ->].
Qed.

End identifiers.

(** ** The list read from a response *)

Lemma str_breaks : is_linebreak LF = true ∧ is_linebreak CR = true.
Proof. by split. Qed.

Lemma bytes_breaks : is_bytes_linebreak LF = true ∧ is_bytes_linebreak CR = true.
Proof. by split. Qed.

(** No entry of the list holds a line feed, decoded or not. *)
Lemma iter_lines_lf_free (res : Response) :
  Forall (λ l, lf_free l) (iter_lines res).
Proof.
  unfold iter_lines. destruct (chunks res) as [cs|cs shown].
  - eapply Forall_impl.
    + by apply (iter_lines_go_lb_free is_linebreak eq_refl), pending_ok_None.
    + intros l. by apply lb_free_lf_free.
  - apply Forall_fmap, Forall_true. intros b. apply bytes_repr_lf_free.
Qed.

(** The identifier a run draws holds no line feed. *)
Lemma next_uuid_lf_free (w : World) : lf_free (next_uuid w).
Proof. apply uuid_str_lf_free. Qed.

(** ** The rendered blocks *)

(** C1. For a non-empty list the allow block is the header line naming the
    block [auth-gate-<id>], one four-space-indented [allow] line per entry
    and the three footer lines [registered], [requireaccount] and
    [parent], joined by line feeds with none after the last line of each
    part; for the entries 1.2.3.4/32 and 5.6.7.8/24 and the parent [main]
    it is the text the specification gives. *)
Theorem C1_allow_block (args : Namespace) (ips : list string) (uuid : string) :
  ips ≠ [] →
  (render args ips uuid).1 = join nl (allow_lines uuid ips (parent args))
  ∧ (ips = ["1.2.3.4/32"; "5.6.7.8/24"] → parent args = "main" →
     (render args ips uuid).1
     = "<connect name=" +:+ dq +:+ "auth-gate-" +:+ uuid +:+ dq +:+ nl
       +:+ "    allow=" +:+ dq +:+ "1.2.3.4/32" +:+ dq +:+ nl
       +:+ "    allow=" +:+ dq +:+ "5.6.7.8/24" +:+ dq +:+ nl
       +:+ "    registered=" +:+ dq +:+ "true" +:+ dq +:+ nl
       +:+ "    requireaccount=" +:+ dq +:+ "yes" +:+ dq +:+ nl
       +:+ "    parent=" +:+ dq +:+ "main" +:+ dq +:+ ">").
Proof.
  intros Hne. split.
  - by rewrite render_lines.
  - intros -> Hp. unfold render, allow_block, class_name. cbn [fst].
    rewrite Hp. vm_compute allow_deny. cbv beta iota. by snorm.
Qed.

Lemma C1_allow_block_witness :
  let args := mkNamespace "Identify please" "" "main" "http://list.example/" in
  let ips := ["1.2.3.4/32"; "5.6.7.8/24"] in
  let uuid := "73494747-e19e-4cdf-bc3b-c0f5b94af2e2" in
  ips ≠ []
  ∧ (render args ips uuid).1 = join nl (allow_lines uuid ips (parent args)).
Proof.
  intros args ips uuid.
  assert (Hne : ips ≠ []) by discriminate.
  split; [exact Hne|]. exact (proj1 (C1_allow_block args ips uuid Hne)).
Defined.

(** C2. For a non-empty list the deny block is the bare [<connect] line,
    one four-space-indented [deny] line per entry and the footer lines
    [registered] and [reason], joined by line feeds; the message is put
    between the quotes of [reason] as it is, whatever characters it holds;
    for the entries 1.2.3.4/32 and 5.6.7.8/24 and the message
    [Identify please] it is the text the specification gives. *)
Theorem C2_deny_block (args : Namespace) (ips : list string) (uuid : string) :
  ips ≠ [] →
  (render args ips uuid).2 = join nl (deny_lines ips (message args))
  ∧ (ips = ["1.2.3.4/32"; "5.6.7.8/24"] → message args = "Identify please" →
     (render args ips uuid).2
     = "<connect" +:+ nl
       +:+ "    deny=" +:+ dq +:+ "1.2.3.4/32" +:+ dq +:+ nl
       +:+ "    deny=" +:+ dq +:+ "5.6.7.8/24" +:+ dq +:+ nl
       +:+ "    registered=" +:+ dq +:+ "true" +:+ dq +:+ nl
       +:+ "    reason=" +:+ dq +:+ "Identify please" +:+ dq +:+ ">").
Proof.
  intros Hne. split.
  - by rewrite render_lines.
  - intros -> Hm. unfold render, deny_block. cbn [snd].
    rewrite Hm. vm_compute allow_deny. cbv beta iota. by snorm.
Qed.

Lemma C2_deny_block_witness :
  let args :=
    mkNamespace ("say " +:+ dq +:+ "hi" +:+ dq) "" "main"
                "http://list.example/" in
  let ips := ["1.2.3.4/32"; "5.6.7.8/24"] in
  let uuid := "73494747-e19e-4cdf-bc3b-c0f5b94af2e2" in
  ips ≠ []
  ∧ (render args ips uuid).2 = join nl (deny_lines ips (message args)).
Proof.
  intros args ips uuid.
  assert (Hne : ips ≠ []) by discriminate.
  split; [exact Hne|]. exact (proj1 (C2_deny_block args ips uuid Hne)).
Defined.

(** C4. For the empty list (a response without content) each block has an
    empty line between its header line and its footer lines: it is not the
    header followed directly by the footer. *)
Theorem C4_empty_list_blank_line (args : Namespace) (uuid : string) :
  let ips := iter_lines (mkResponse 200 []) in
  ips = []
  ∧ (render args ips uuid).1
    = join nl ["<connect name=" +:+ dq +:+ "auth-gate-" +:+ uuid +:+ dq;
               "";
               attr "registered" "true"; attr "requireaccount" "yes";
               attr "parent" (parent args) +:+ ">"]
  ∧ (render args ips uuid).2
    = join nl ["<connect"; "";
               attr "registered" "true"; attr "reason" (message args) +:+ ">"]
  ∧ (render args ips uuid).1 ≠ join nl (allow_lines uuid ips (parent args))
  ∧ (render args ips uuid).2 ≠ join nl (deny_lines ips (message args)).
Proof.
  cbv zeta. change (iter_lines (mkResponse 200 [])) with (@nil string).
  split; [done|].
  unfold render, allow_block, deny_block, class_name, allow_lines, deny_lines.
  vm_compute allow_deny. cbv beta iota. cbn [fst snd map app join].
  repeat split.
  - by snorm.
  - by snorm.
  - snorm. intros H.
    apply (inj (String.app _)), (inj (String.app _)) in H.
    apply (inj (String.app _)), (inj (String.app _)) in H. discriminate H.
  - snorm. intros H. discriminate H.
Qed.

(** ** A run of [main] *)

Section run.
Variables (args : Namespace) (res : Response).

(** Runs the statements of [main] on a world given by its fields. *)
Local Ltac run_main :=
  unfold main, mbind, M_bind, bind, requests_get;
  cbn [net]; repeat match goal with H : _ = Some res |- _ => rewrite H end;
  destruct (negb (status_code res =? 200)%Z);
  unfold print_stderr, uuid4, ret.

(** The world after a run that got [res] and wrote to standard output. *)
Lemma main_stdout (w : World) :
  net w (url args) = Some res → output args = "" →
  main args w
  = (mkWorld (net w) (urandom w) (S (uuid_drawn w))
             (w_stdout w +:+ document args (iter_lines res) (next_uuid w))
             (w_stderr w +:+ complaint res) (files w) (locked w),
     Ok tt).
Proof.
  destruct w as [n rnd drawn out err fs lk]. cbn [net]. intros Hnet Ho.
  unfold document, next_uuid, uuid_source, complaint.
  cbn [net urandom uuid_drawn w_stdout w_stderr files locked].
  run_main.
  all: destruct (render args (iter_lines res) _) as [ab db].
  all: rewrite Ho; cbn [String.length Nat.eqb negb fst snd].
  all: generalize banner; intros bn; unfold write, close, ret.
  all: by rewrite ?sapp_assoc, ?sapp_nil_r.
Qed.

(** The world after a run that got [res] and wrote to its file. *)
Lemma main_file (w : World) :
  net w (url args) = Some res →
  output args ≠ "" → output args ∉ locked w →
  main args w
  = (mkWorld (net w) (urandom w) (S (uuid_drawn w)) (w_stdout w)
             (w_stderr w +:+ complaint res)
             (<[output args := document args (iter_lines res) (next_uuid w)]>
                (files w))
             (locked w),
     Ok tt).
Proof.
  destruct w as [n rnd drawn out err fs lk]. cbn [net locked]. intros Hnet Ho Hl.
  unfold document, next_uuid, uuid_source, complaint.
  cbn [net urandom uuid_drawn w_stdout w_stderr files locked].
  run_main.
  all: destruct (render args (iter_lines res) _) as [ab db].
  all: assert (negb (String.length (output args) =? 0) = true) as ->
         by (by destruct (output args)).
  all: generalize banner; intros bn; unfold open_w, write, close, ret.
  all: rewrite decide_False by exact Hl.
  all: rewrite !alter_insert_eq; cbn [fst snd].
  all: by rewrite ?sapp_assoc, ?sapp_nil_r, ?sapp_nil_l.
Qed.

(** A run that cannot open its file ends with the error, having written
    neither to the file system nor to standard output. *)
Lemma main_locked (w : World) :
  net w (url args) = Some res →
  output args ≠ "" → output args ∈ locked w →
  main args w
  = (mkWorld (net w) (urandom w) (S (uuid_drawn w)) (w_stdout w)
             (w_stderr w +:+ complaint res) (files w) (locked w),
     Raise OSError).
Proof.
  destruct w as [n rnd drawn out err fs lk]. cbn [net locked]. intros Hnet Ho Hl.
  unfold complaint.
  cbn [net urandom uuid_drawn w_stdout w_stderr files locked].
  run_main.
  all: destruct (render args (iter_lines res) _) as [ab db].
  all: assert (negb (String.length (output args) =? 0) = true) as ->
         by (by destruct (output args)).
  all: unfold open_w; rewrite decide_True by exact Hl.
  all: by rewrite ?sapp_assoc, ?sapp_nil_r.
Qed.

(** A run whose request is answered and whose destination can be written
    ends normally; it has drawn one identifier, put the document at the
    destination and nowhere else, and written to the error stream only
    when the status is not 200. *)
Lemma main_run (w : World) :
  net w (url args) = Some res → writable args w →
  (main args w).2 = Ok tt
  ∧ delivered args w (main args w).1
      (document args (iter_lines res) (next_uuid w))
  ∧ w_stderr (main args w).1 = w_stderr w +:+ complaint res
  ∧ uuid_drawn (main args w).1 = S (uuid_drawn w).
Proof.
  intros Hnet Hw. unfold delivered.
  destruct (decide (output args = "")) as [Ho|Ho].
  - rewrite (main_stdout w Hnet Ho).
    cbn [fst snd w_stdout w_stderr files uuid_drawn]. auto.
  - destruct Hw as [Hw|Hw]; [by destruct Ho|].
    rewrite (main_file w Hnet Ho Hw).
    cbn [fst snd w_stdout w_stderr files uuid_drawn]. auto.
Qed.

(** The run draws its identifier whether or not it can write. *)
Lemma main_draws_one (w : World) :
  net w (url args) = Some res →
  uuid_drawn (main args w).1 = S (uuid_drawn w)
  ∧ uuid_source (main args w).1 = uuid_source w.
Proof.
  intros Hnet. destruct (decide (output args = "")) as [Ho|Ho].
  - by rewrite (main_stdout w Hnet Ho).
  - destruct (decide (output args ∈ locked w)) as [Hl|Hl].
    + by rewrite (main_locked w Hnet Ho Hl).
    + by rewrite (main_file w Hnet Ho Hl).
Qed.

(** A run whose request fails stops there. *)
Lemma main_no_answer (w : World) :
  net w (url args) = None → main args w = (w, Raise RequestException).
Proof.
  intros H. unfold main, mbind, M_bind, bind, requests_get. by rewrite H.
Qed.

End run.

(** ** The list read and the entries rendered *)




(** C9, as stated, fails: with a message that goes on after a line feed
    the deny block has two [deny] lines for a list of one entry, against
    one [allow] line in the allow block, and the second quotes a value that
    is no entry of the list; a parent of that kind gives the allow block
    the extra line. *)
Lemma C9_counterexample :
  let ips := ["1.2.3.4/32"] in
  let uuid := Sample.ids 0 in
  (let args := Cases.two_line_message in
   entry_lines "allow" (render args ips uuid).1 = [attr "allow" "1.2.3.4/32"]
   ∧ entry_lines "deny" (render args ips uuid).2
     = [attr "deny" "1.2.3.4/32"; attr "deny" "0.0.0.0/0" +:+ ">"]
   ∧ length (entry_lines "deny" (render args ips uuid).2)
     ≠ length (entry_lines "allow" (render args ips uuid).1))
  ∧ (let args := Cases.two_line_parent in
     length (entry_lines "allow" (render args ips uuid).1)
     ≠ length (entry_lines "deny" (render args ips uuid).2)).
Proof. vm_compute. repeat split; discriminate. Qed.

(** C9, amended.  When the parent and the message hold no line feed, the
    allow block and the deny block list the same entries in the same
    order, for every list read from a response: the i-th [allow] line is
    the line of the i-th entry of the list and the i-th [deny] line is the
    line of that same entry, and the values the two blocks quote, read back
    line by line, are the entries of the list. *)
Theorem C9_same_entries (args : Namespace) (w : World) (res : Response) :
  lf_free (parent args) → lf_free (message args) →
  let ips := iter_lines res in
  let uuid := next_uuid w in
  let allows := entry_lines "allow" (render args ips uuid).1 in
  let denies := entry_lines "deny" (render args ips uuid).2 in
  length allows = length denies
  ∧ (∀ i ip, ips !! i = Some ip →
       allows !! i = Some ("    allow=" +:+ dq +:+ ip +:+ dq)
       ∧ denies !! i = Some ("    deny=" +:+ dq +:+ ip +:+ dq))
  ∧ map (entry_value "allow") allows = map Some ips
  ∧ map (entry_value "deny") denies = map (entry_value "allow") allows.
Proof.
  intros Hp Hm ips uuid allows denies.
  assert (Hlf : Forall (λ l, lf_free l) ips) by apply iter_lines_lf_free.
  assert (Hu : lf_free uuid) by apply next_uuid_lf_free.
  clearbody ips uuid.
  assert (Ha : allows = map (attr "allow") ips)
    by by apply allow_entry_lines.
  assert (Hd : denies = map (attr "deny") ips)
    by by apply deny_entry_lines.
  assert (Hv : ∀ key, map (entry_value key) (map (attr key) ips) = map Some ips).
  { intros key. rewrite map_map. apply map_ext. intros ip.
    apply entry_value_attr. }
  rewrite Ha, Hd. split; [by rewrite !length_map|]. split.
  - intros i ip Hi.
    change (map ?f ips) with (f <$> ips). by rewrite !list_lookup_fmap, Hi.
  - split; [apply Hv|]. by rewrite !Hv.
Qed.

Lemma C9_same_entries_witness :
  let args := Sample.to_stdout in
  let w := Sample.world in
  let res := Sample.ok_response in
  let ips := iter_lines res in
  let uuid := next_uuid w in
  lf_free (parent args) ∧ lf_free (message args)
  ∧ map (entry_value "deny") (entry_lines "deny" (render args ips uuid).2)
    = map (entry_value "allow") (entry_lines "allow" (render args ips uuid).1).
Proof.
  intros args w res ips uuid.
  refine (conj I (conj I _)).
  exact (proj2 (proj2 (proj2 (C9_same_entries args w res I I)))).
Defined.

(** C10. The allow block is a function of the parent, the list and the
    identifier, and the deny block of the message and the list: runs that
    differ in the arguments but agree on the parent have the same allow
    block, and runs that agree on the message have the same deny block. *)
Theorem C10_independence (args1 args2 : Namespace) (ips : list string)
    (uuid uuid' : string) :
  (parent args1 = parent args2 →
   (render args1 ips uuid).1 = (render args2 ips uuid).1)
  ∧ (message args1 = message args2 →
     (render args1 ips uuid).2 = (render args2 ips uuid').2).
Proof.
  unfold render. destruct (allow_deny ips) as [allow deny]. cbn [fst snd].
  split; by intros ->.
Qed.

Lemma C10_independence_witness :
  let a1 := mkNamespace "Identify please" "" "main" "http://list.example/" in
  let a2 := mkNamespace "Go away" "gate.conf" "main" "http://list.example/" in
  let a3 := mkNamespace "Go away" "" "strict" "http://gone.example/" in
  let ips := ["1.2.3.4/32"; "5.6.7.8/24"] in
  (parent a1 = parent a2 ∧ message a2 = message a3)
  ∧ (render a1 ips (Sample.ids 0)).1 = (render a2 ips (Sample.ids 0)).1
  ∧ (render a2 ips (Sample.ids 0)).2 = (render a3 ips (Sample.ids 1)).2.
Proof.
  intros a1 a2 a3 ips. split; [by split|]. split.
  - exact (proj1 (C10_independence a1 a2 ips (Sample.ids 0) (Sample.ids 0))
                 eq_refl).
  - exact (proj2 (C10_independence a2 a3 ips (Sample.ids 0) (Sample.ids 1))
                 eq_refl).
Defined.

(** ** What a run emits, and where *)

(** C5. The text a run emits is the comment line naming the generator with
    its line feed, the allow block, one line feed, the deny block and a
    final line feed, in this order and nothing else. *)
Theorem C5_document (args : Namespace) (w : World) (res : Response) :
  net w (url args) = Some res → writable args w →
  let ips := iter_lines res in
  let allow_block := (render args ips (next_uuid w)).1 in
  let deny_block := (render args ips (next_uuid w)).2 in
  (main args w).2 = Ok tt
  ∧ delivered args w (main args w).1
      ("# Authentication gate configuration auto-generated by inspircd-auth-gate-generator.py"
       +:+ nl +:+ allow_block +:+ nl +:+ deny_block +:+ nl).
Proof.
  intros Hnet Hw ips ab db.
  destruct (main_run args res w Hnet Hw) as (Hok & Hdel & _).
  split; [done|].
  replace (_ +:+ _) with (document args ips (next_uuid w)); [done|].
  unfold document, banner. by snorm.
Qed.

Lemma C5_document_witness :
  let args := Sample.to_stdout in
  let w := Sample.world in
  net w (url args) = Some Sample.ok_response ∧ writable args w
  ∧ (main args w).2 = Ok tt.
Proof.
  intros args w.
  assert (Hnet : net w (url args) = Some Sample.ok_response) by reflexivity.
  assert (Hw : writable args w) by (by left).
  split; [exact Hnet|]. split; [exact Hw|].
  exact (proj1 (C5_document args w Sample.ok_response Hnet Hw)).
Defined.

(** C6. With a non-empty output path the file at that path holds exactly
    the rendered text afterwards, whatever it held before, every other file
    is as it was and standard output is untouched; with the empty path,
    which is also the default, the text is appended to standard output and
    the files are as they were. *)
Theorem C6_destination (args : Namespace) (w : World) (res : Response) :
  net w (url args) = Some res → writable args w →
  let doc := document args (iter_lines res) (next_uuid w) in
  let w' := (main args w).1 in
  (output args ≠ "" →
   files w' = <[output args := doc]> (files w) ∧ w_stdout w' = w_stdout w)
  ∧ (output args = "" →
     w_stdout w' = w_stdout w +:+ doc ∧ files w' = files w)
  ∧ output defaults = "".
Proof.
  intros Hnet Hw doc w'.
  destruct (main_run args res w Hnet Hw) as (_ & Hdel & _).
  unfold delivered in Hdel. fold doc w' in Hdel.
  destruct (decide (output args = "")); repeat split; intros; try done;
    by destruct Hdel.
Qed.

Lemma C6_destination_witness :
  let args := Sample.to_file in
  let w := Sample.world in
  let res := Sample.ok_response in
  let w' := (main args w).1 in
  net w (url args) = Some res ∧ writable args w ∧ output args ≠ ""
  ∧ files w' !! "gate.conf"
    = Some (document args (iter_lines res) (next_uuid w))
  ∧ w_stdout w' = "".
Proof.
  intros args w res w'.
  assert (Hnet : net w (url args) = Some res) by reflexivity.
  assert (Hw : writable args w) by (right; apply not_elem_of_empty).
  assert (Ho : output args ≠ "") by discriminate.
  destruct (proj1 (C6_destination args w res Hnet Hw) Ho) as [Hf Hs].
  refine (conj Hnet (conj Hw (conj Ho (conj _ Hs)))).
  fold w' in Hf. rewrite Hf. apply lookup_insert_eq.
Defined.

(** C7. When the status of the response is not 200 the run writes the line
    saying that the request did not return the OK status and then the body
    of the response to the error stream, goes on with the lines of that
    body and ends normally with the text rendered from them delivered. *)
Theorem C7_status_not_ok (args : Namespace) (w : World) (res : Response) :
  net w (url args) = Some res → status_code res ≠ 200%Z → writable args w →
  let w' := (main args w).1 in
  (main args w).2 = Ok tt
  ∧ w_stderr w'
    = w_stderr w +:+ "URL request did not return OK status" +:+ nl
                 +:+ text res +:+ nl
  ∧ delivered args w w' (document args (iter_lines res) (next_uuid w)).
Proof.
  intros Hnet Hst Hw w'.
  destruct (main_run args res w Hnet Hw) as (Hok & Hdel & Herr & _).
  repeat split; try done.
  fold w' in Herr. rewrite Herr. unfold complaint.
  apply Z.eqb_neq in Hst. by rewrite Hst.
Qed.

Lemma C7_status_not_ok_witness :
  let args := Sample.from_error in
  let w := Sample.world in
  let res := Sample.error_response in
  net w (url args) = Some res ∧ status_code res ≠ 200%Z ∧ writable args w
  ∧ (main args w).2 = Ok tt
  ∧ w_stderr (main args w).1
    = "URL request did not return OK status" +:+ nl
      +:+ "404: Not Found" +:+ nl +:+ nl.
Proof.
  intros args w res.
  assert (Hnet : net w (url args) = Some res) by reflexivity.
  assert (Hst : status_code res ≠ 200%Z) by discriminate.
  assert (Hw : writable args w) by (by left).
  destruct (C7_status_not_ok args w res Hnet Hst Hw) as (Hok & Herr & _).
  exact (conj Hnet (conj Hst (conj Hw (conj Hok Herr)))).
Defined.

(** The allow block begins with the header that names it. *)
Lemma allow_block_header (args : Namespace) (ips : list string) (uuid : string) :
  String.prefix
    ("<connect name=" +:+ dq +:+ "auth-gate-" +:+ uuid +:+ dq +:+ nl)
    (render args ips uuid).1 = true.
Proof.
  unfold render. destruct (allow_deny ips) as [allow deny]. cbn [fst].
  unfold allow_block, class_name.
  replace (_ +:+ _ +:+ _ +:+ _ +:+ _ +:+ allow +:+ _)
    with (("<connect name=" +:+ dq +:+ "auth-gate-" +:+ uuid +:+ dq +:+ nl)
          +:+ allow +:+ nl
          +:+ "    registered=" +:+ dq +:+ "true" +:+ dq +:+ nl
          +:+ "    requireaccount=" +:+ dq +:+ "yes" +:+ dq +:+ nl
          +:+ "    parent=" +:+ dq +:+ parent args +:+ dq +:+ ">")
    by by snorm.
  apply prefix_app.
Qed.

(** The name of the block determines the number of the UUID, and back. *)
Lemma block_name_inj (w1 w2 : World) :
  "auth-gate-" +:+ next_uuid w1 = "auth-gate-" +:+ next_uuid w2
  ↔ next_uuid_int w1 = next_uuid_int w2.
Proof.
  unfold next_uuid, uuid_source, next_uuid_int. split.
  - intros H. apply (inj (String.app _)) in H.
    apply uuid_str_inj in H; [done|apply uuid4_int_lt..];
      by apply N.mod_lt.
  - by intros ->.
Qed.

(** C8, as stated, fails: nothing in the script keeps two runs from drawing
    the same identifier.  When the random source gives the same sixteen
    bytes twice, two runs, one after the other, with the same arguments
    and the same list, both end normally and name their allow blocks
    alike; and two draws that differ only in the six bits which the
    version and the variant overwrite give the same identifier too. *)
Lemma C8_counterexample :
  let args := Sample.to_stdout in
  let w1 := Cases.stuck in
  let w2 := (main args w1).1 in
  ((main args w1).2 = Ok tt ∧ (main args w2).2 = Ok tt
   ∧ uuid_drawn w1 = 0 ∧ uuid_drawn w2 = 1
   ∧ "auth-gate-" +:+ next_uuid w1 = "auth-gate-" +:+ next_uuid w2
   ∧ (render args (iter_lines Sample.ok_response) (next_uuid w1)).1
     = (render args (iter_lines Sample.ok_response) (next_uuid w2)).1)
  ∧ (0x73494747e19e4cdfbc3bc0f5b94af2e2 ≠ 0x73494747e19e1cdf3c3bc0f5b94af2e2
     ∧ uuid_str (uuid4_int 0x73494747e19e4cdfbc3bc0f5b94af2e2)
       = uuid_str (uuid4_int 0x73494747e19e1cdf3c3bc0f5b94af2e2))%N.
Proof. vm_compute. repeat split; discriminate. Qed.

(** C8, amended.  A run draws exactly one identifier, the version-4 UUID
    of the next sixteen random bytes, so that a run started afterwards
    draws the one of the bytes after them, and its allow block begins with
    the header naming it [auth-gate-] followed by that identifier.  Two
    runs have different block names exactly when the UUIDs of their random
    bytes differ, whatever their lists and arguments; the script does not
    compare or record names, so that is as far as they are distinct. *)
Theorem C8_block_names (args1 args2 : Namespace) (w1 w2 : World)
    (res1 res2 : Response) :
  net w1 (url args1) = Some res1 → net w2 (url args2) = Some res2 →
  let name1 := "auth-gate-" +:+ next_uuid w1 in
  let name2 := "auth-gate-" +:+ next_uuid w2 in
  (name1 ≠ name2 ↔ next_uuid_int w1 ≠ next_uuid_int w2)
  ∧ next_uuid w1 = uuid_str (next_uuid_int w1)
  ∧ String.prefix ("<connect name=" +:+ dq +:+ name1 +:+ dq +:+ nl)
      (render args1 (iter_lines res1) (next_uuid w1)).1 = true
  ∧ String.prefix ("<connect name=" +:+ dq +:+ name2 +:+ dq +:+ nl)
      (render args2 (iter_lines res2) (next_uuid w2)).1 = true
  ∧ uuid_drawn (main args1 w1).1 = S (uuid_drawn w1)
  ∧ uuid_drawn (main args2 w2).1 = S (uuid_drawn w2)
  ∧ next_uuid (main args1 w1).1 = uuid_source w1 (S (uuid_drawn w1)).
Proof.
  intros Hnet1 Hnet2 name1 name2.
  destruct (main_draws_one args1 res1 w1 Hnet1) as [Hd1 Hs1].
  destruct (main_draws_one args2 res2 w2 Hnet2) as [Hd2 _].
  split; [|split; [|split; [|split; [|split; [|split]]]]].
  - subst name1 name2. by rewrite block_name_inj.
  - done.
  - apply allow_block_header.
  - apply allow_block_header.
  - exact Hd1.
  - exact Hd2.
  - unfold next_uuid. by rewrite Hd1, Hs1.
Qed.

Lemma C8_block_names_witness :
  let a := Sample.to_stdout in
  let w1 := Sample.world in
  let w2 := (main a w1).1 in
  net w1 (url a) = Some Sample.ok_response
  ∧ net w2 (url a) = Some Sample.ok_response
  ∧ next_uuid_int w1 ≠ next_uuid_int w2
  ∧ "auth-gate-" +:+ next_uuid w1 ≠ "auth-gate-" +:+ next_uuid w2.
Proof.
  intros a w1 w2.
  assert (H1 : net w1 (url a) = Some Sample.ok_response) by reflexivity.
  assert (H2 : net w2 (url a) = Some Sample.ok_response) by reflexivity.
  assert (Hne : next_uuid_int w1 ≠ next_uuid_int w2)
    by (vm_compute; discriminate).
  refine (conj H1 (conj H2 (conj Hne _))).
  exact (proj2 (proj1 (C8_block_names a a w1 w2 _ _ H1 H2)) Hne).
Defined.

(** * Further properties of [main] *)

(** ** How a run can end *)

(** X1. When the request fails nothing else happens: the run ends with the
    exception of the request and the world is as before, so no identifier
    is drawn, nothing is printed and the output file, if one is named, is
    neither created nor emptied. *)
Theorem X1_request_failure (args : Namespace) (w : World) :
  net w (url args) = None →
  main args w = (w, Raise RequestException).
Proof. apply main_no_answer. Qed.

Lemma X1_request_failure_witness :
  net Cases.offline (url Sample.to_file) = None
  ∧ main Sample.to_file Cases.offline = (Cases.offline, Raise RequestException).
Proof.
  assert (H : net Cases.offline (url Sample.to_file) = None) by reflexivity.
  exact (conj H (X1_request_failure Sample.to_file Cases.offline H)).
Defined.

(** X2. When the output file cannot be opened the run ends with the error
    of [open], after the response was read: the complaint about a status
    other than 200 is on the error stream and one identifier is drawn, but
    no file has changed and nothing is on standard output. *)
Theorem X2_open_failure (args : Namespace) (w : World) (res : Response) :
  net w (url args) = Some res →
  output args ≠ "" → output args ∈ locked w →
  let w' := (main args w).1 in
  (main args w).2 = Raise OSError
  ∧ files w' = files w
  ∧ w_stdout w' = w_stdout w
  ∧ w_stderr w' = w_stderr w +:+ complaint res
  ∧ uuid_drawn w' = S (uuid_drawn w).
Proof.
  intros Hnet Ho Hl w'. subst w'.
  rewrite (main_locked args res w Hnet Ho Hl).
  cbn [fst snd files w_stdout w_stderr uuid_drawn]. auto 6.
Qed.

Lemma X2_open_failure_witness :
  let args := Cases.error_to_file in
  let w := Cases.protected in
  let res := Sample.error_response in
  net w (url args) = Some res ∧ output args ≠ "" ∧ output args ∈ locked w
  ∧ (main args w).2 = Raise OSError
  ∧ files (main args w).1 = files w.
Proof.
  intros args w res.
  assert (Hnet : net w (url args) = Some res) by reflexivity.
  assert (Ho : output args ≠ "") by discriminate.
  assert (Hl : output args ∈ locked w) by (vm_compute; reflexivity).
  destruct (X2_open_failure args w res Hnet Ho Hl) as (Hr & Hf & _).
  exact (conj Hnet (conj Ho (conj Hl (conj Hr Hf)))).
Defined.

(** X3. A response with status 200 leaves the error stream as it was,
    whether or not the output can be written afterwards. *)
Theorem X3_status_ok_silent (args : Namespace) (w : World) (res : Response) :
  net w (url args) = Some res → status_code res = 200%Z →
  w_stderr (main args w).1 = w_stderr w.
Proof.
  intros Hnet Hst.
  assert (Hc : complaint res = "").
  { unfold complaint. by rewrite Hst. }
  destruct (decide (output args = "")) as [Ho|Ho].
  - rewrite (main_stdout args res w Hnet Ho). cbn [fst w_stderr].
    by rewrite Hc, sapp_nil_r.
  - destruct (decide (output args ∈ locked w)) as [Hl|Hl].
    + rewrite (main_locked args res w Hnet Ho Hl). cbn [fst w_stderr].
      by rewrite Hc, sapp_nil_r.
    + rewrite (main_file args res w Hnet Ho Hl). cbn [fst w_stderr].
      by rewrite Hc, sapp_nil_r.
Qed.

Lemma X3_status_ok_silent_witness :
  let args := Sample.to_file in
  let w := Cases.protected in
  net w (url args) = Some Sample.ok_response
  ∧ status_code Sample.ok_response = 200%Z
  ∧ w_stderr (main args w).1 = w_stderr w.
Proof.
  intros args w.
  assert (Hnet : net w (url args) = Some Sample.ok_response) by reflexivity.
  assert (Hst : status_code Sample.ok_response = 200%Z) by reflexivity.
  exact (conj Hnet (conj Hst
           (X3_status_ok_silent args w Sample.ok_response Hnet Hst))).
Defined.

(** X4. What no run does, however it ends: it does not change what the
    servers answer, the source of identifiers or the set of protected
    paths; it changes no file other than the one named by [output]; with an
    output path it prints nothing on standard output, and with the empty
    path it changes no file at all. *)
Theorem X4_frame (args : Namespace) (w : World) :
  let w' := (main args w).1 in
  net w' = net w ∧ uuid_source w' = uuid_source w ∧ locked w' = locked w
  ∧ (∀ path, path ≠ output args → files w' !! path = files w !! path)
  ∧ (output args ≠ "" → w_stdout w' = w_stdout w)
  ∧ (output args = "" → files w' = files w).
Proof.
  intros w'. subst w'.
  destruct (net w (url args)) as [res|] eqn:Hnet.
  2:{ rewrite (main_no_answer args w Hnet). cbn [fst]. by repeat split. }
  destruct (decide (output args = "")) as [Ho|Ho].
  { rewrite (main_stdout args res w Hnet Ho).
    cbn [fst net uuid_source locked files w_stdout]. by repeat split. }
  destruct (decide (output args ∈ locked w)) as [Hl|Hl].
  { rewrite (main_locked args res w Hnet Ho Hl).
    cbn [fst net uuid_source locked files w_stdout]. by repeat split. }
  rewrite (main_file args res w Hnet Ho Hl).
  cbn [fst net uuid_source locked files w_stdout].
  split; [done|]. split; [done|]. split; [done|]. split; [|by split].
  intros path Hp. by rewrite lookup_insert_ne.
Qed.

Lemma X4_frame_witness :
  let args := Sample.to_file in
  let w := Sample.world in
  "other.conf" ≠ output args
  ∧ files (main args w).1 !! "other.conf" = files w !! "other.conf".
Proof.
  intros args w.
  assert (Hp : "other.conf" ≠ output args) by discriminate.
  exact (conj Hp (proj1 (proj2 (proj2 (proj2 (X4_frame args w))))
                    "other.conf" Hp)).
Defined.

(** ** Running again *)

(** X5. A second run with the same arguments draws the next identifier.
    With an output path it replaces the file: afterwards the file holds the
    text of the second run alone and standard output is untouched.  With
    the empty path standard output holds the text of the first run followed
    by that of the second. *)
Theorem X5_rerun (args : Namespace) (w : World) (res : Response) :
  net w (url args) = Some res → writable args w →
  let ips := iter_lines res in
  let doc1 := document args ips (uuid_source w (uuid_drawn w)) in
  let doc2 := document args ips (uuid_source w (S (uuid_drawn w))) in
  let w2 := (main args (main args w).1).1 in
  (main args (main args w).1).2 = Ok tt
  ∧ (output args ≠ "" →
     files w2 = <[output args := doc2]> (files w) ∧ w_stdout w2 = w_stdout w)
  ∧ (output args = "" →
     w_stdout w2 = w_stdout w +:+ doc1 +:+ doc2 ∧ files w2 = files w).
Proof.
  intros Hnet Hw ips doc1 doc2 w2. subst w2.
  destruct (decide (output args = "")) as [Ho|Ho].
  - rewrite (main_stdout args res w Hnet Ho).
    cbn [fst]. rewrite main_stdout with (res := res) by done.
    cbn [fst snd net uuid_source uuid_drawn w_stdout w_stderr files locked].
    unfold next_uuid. cbn [uuid_source uuid_drawn]. fold ips doc1 doc2.
    split; [done|]. split; [done|]. intros _. by rewrite sapp_assoc.
  - destruct Hw as [Hw|Hw]; [done|].
    rewrite (main_file args res w Hnet Ho Hw).
    cbn [fst]. rewrite main_file with (res := res) by done.
    cbn [fst snd net uuid_source uuid_drawn w_stdout w_stderr files locked].
    unfold next_uuid. cbn [uuid_source uuid_drawn]. fold ips doc2.
    split; [done|]. split; [|done]. intros _.
    by rewrite insert_insert_eq.
Qed.

Lemma X5_rerun_witness :
  let args := Sample.to_file in
  let w := Sample.world in
  let res := Sample.ok_response in
  net w (url args) = Some res ∧ writable args w ∧ output args ≠ ""
  ∧ files (main args (main args w).1).1
    = <[output args := document args (iter_lines res) (Sample.ids 1)]> (files w).
Proof.
  intros args w res.
  assert (Hnet : net w (url args) = Some res) by reflexivity.
  assert (Hw : writable args w) by (right; apply not_elem_of_empty).
  assert (Ho : output args ≠ "") by discriminate.
  exact (conj Hnet (conj Hw (conj Ho
    (proj1 (proj1 (proj2 (X5_rerun args w res Hnet Hw)) Ho))))).
Defined.

(** ** The lines of the text *)

Section text_lines.
Implicit Types s t : string.

Lemma split_nl_nonempty s : split_nl s ≠ [].
Proof.
  destruct s as [|c s]; [done|]. cbn [split_nl].
  destruct (Ascii.eqb c LF); [done|]. by destruct (split_nl s).
Qed.

(** The lines of two texts put together with a line feed between them. *)
Lemma split_nl_glue s t :
  split_nl (s +:+ nl +:+ t) = split_nl s ++ split_nl t.
Proof.
  induction s as [|c s IH]; [done|].
  rewrite sapp_cons. cbn [split_nl]. rewrite IH.
  destruct (Ascii.eqb c LF); [done|].
  pose proof (split_nl_nonempty s) as Hne.
  by destruct (split_nl s).
Qed.

Lemma length_entries_or_blank key (ips : list string) :
  length (entries_or_blank key ips) = Nat.max 1 (length ips).
Proof. destruct ips as [|x l]; [done|]. cbn. by rewrite length_map. Qed.

Lemma filter_other_key (l : list string) :
  List.filter (String.prefix (attr_open "allow")) (map (attr "deny") l) = []
  ∧ List.filter (String.prefix (attr_open "deny")) (map (attr "allow") l) = [].
Proof. induction l as [|x l [IH1 IH2]]; [done|]. split; [exact IH1|exact IH2]. Qed.

Lemma filter_entries_or_blank key (ips : list string) :
  List.filter (String.prefix (attr_open key)) (entries_or_blank key ips)
  = map (attr key) ips.
Proof.
  destruct ips as [|x l].
  - cbn. unfold attr_open. rewrite !sapp_cons. done.
  - apply filter_attrs.
Qed.

Variables (args : Namespace) (ips : list string) (uuid : string).
Hypothesis Hips : Forall (λ s, lf_free s) ips.

(** The allow block, line by line, for every list. *)
Lemma allow_block_lines :
  lf_free uuid → lf_free (parent args) →
  split_nl (render args ips uuid).1
  = ["<connect name=" +:+ dq +:+ "auth-gate-" +:+ uuid +:+ dq]
    ++ entries_or_blank "allow" ips
    ++ [attr "registered" "true"; attr "requireaccount" "yes";
        attr "parent" (parent args) +:+ ">"].
Proof.
  intros Hu Hp. destruct ips as [|x l] eqn:E.
  - unfold render, allow_block, class_name.
    vm_compute allow_deny. cbv beta iota. cbn [fst entries_or_blank app].
    replace (_ +:+ _)
      with (("<connect name=" +:+ dq +:+ "auth-gate-" +:+ uuid +:+ dq)
            +:+ nl +:+ "" +:+ nl +:+ attr "registered" "true"
            +:+ nl +:+ attr "requireaccount" "yes"
            +:+ nl +:+ attr "parent" (parent args) +:+ ">") by by snorm.
    rewrite split_nl_app.
    2:{ rewrite !lf_free_app, (Is_true_true_1 _ Hu). done. }
    rewrite split_nl_app, split_nl_app, split_nl_app by done.
    rewrite split_nl_lf_free; [done|].
    unfold attr. rewrite !lf_free_app, (Is_true_true_1 _ Hp). done.
  - rewrite <-E in *. rewrite render_lines by (by rewrite E). cbn [fst].
    rewrite split_nl_join.
    + unfold allow_lines. by rewrite E.
    + by rewrite E.
    + unfold allow_lines. repeat apply Forall_app_2.
      * apply Forall_singleton.
        rewrite !lf_free_app, (Is_true_true_1 _ Hu). done.
      * by apply Forall_lf_free_attrs.
      * repeat apply Forall_cons_2; try done.
        unfold attr. rewrite !lf_free_app, (Is_true_true_1 _ Hp). done.
Qed.

(** The deny block, line by line, for every list. *)
Lemma deny_block_lines :
  lf_free (message args) →
  split_nl (render args ips uuid).2
  = ["<connect"]
    ++ entries_or_blank "deny" ips
    ++ [attr "registered" "true"; attr "reason" (message args) +:+ ">"].
Proof.
  intros Hm. destruct ips as [|x l] eqn:E.
  - unfold render, deny_block.
    vm_compute allow_deny. cbv beta iota. cbn [snd entries_or_blank app].
    replace (_ +:+ _)
      with ("<connect" +:+ nl +:+ "" +:+ nl +:+ attr "registered" "true"
            +:+ nl +:+ attr "reason" (message args) +:+ ">") by by snorm.
    rewrite split_nl_app, split_nl_app, split_nl_app by done.
    rewrite split_nl_lf_free; [done|].
    unfold attr. rewrite !lf_free_app, (Is_true_true_1 _ Hm). done.
  - rewrite <-E in *. rewrite render_lines by (by rewrite E). cbn [snd].
    rewrite split_nl_join.
    + unfold deny_lines. by rewrite E.
    + by rewrite E.
    + unfold deny_lines. repeat apply Forall_app_2.
      * by apply Forall_singleton.
      * by apply Forall_lf_free_attrs.
      * repeat apply Forall_cons_2; try done.
        unfold attr. rewrite !lf_free_app, (Is_true_true_1 _ Hm). done.
Qed.

(** The whole text, line by line. *)
Lemma document_lines :
  split_nl (document args ips uuid)
  = ["# Authentication gate configuration auto-generated by inspircd-auth-gate-generator.py"]
    ++ split_nl (render args ips uuid).1
    ++ split_nl (render args ips uuid).2
    ++ [""].
Proof.
  unfold document, banner.
  set (ab := (render args ips uuid).1). set (db := (render args ips uuid).2).
  rewrite sapp_assoc.
  change (ab +:+ nl +:+ db +:+ nl) with (ab +:+ nl +:+ db +:+ nl +:+ "").
  by rewrite !split_nl_glue.
Qed.

End text_lines.

Section read_back.
Variables (args : Namespace) (ips : list string) (uuid : string).
Hypothesis Hips : Forall (λ s, lf_free s) ips.
Hypothesis Hu : lf_free uuid.
Hypothesis Hp : lf_free (parent args).
Hypothesis Hm : lf_free (message args).

Lemma filter_blank_or_other :
  List.filter (String.prefix (attr_open "allow")) (entries_or_blank "deny" ips)
  = []
  ∧ List.filter (String.prefix (attr_open "deny")) (entries_or_blank "allow" ips)
    = [].
Proof.
  destruct ips as [|x l]; [done|]. apply (filter_other_key (x :: l)).
Qed.

(** The attribute lines of the whole text are those of the entries: no
    other line of the text looks like one. *)
Lemma document_entry_lines :
  entry_lines "allow" (document args ips uuid) = map (attr "allow") ips
  ∧ entry_lines "deny" (document args ips uuid) = map (attr "deny") ips.
Proof.
  unfold entry_lines. rewrite document_lines.
  rewrite allow_block_lines, deny_block_lines by done.
  rewrite !List.filter_app, !filter_entries_or_blank.
  destruct filter_blank_or_other as [-> ->].
  change (List.filter _ [_]) with (@nil string).
  change (List.filter _ [_; _]) with (@nil string).
  change (List.filter _ [_; _; _]) with (@nil string).
  by rewrite !app_nil_r.
Qed.

End read_back.

(** X6. For a list whose entries hold no line feed, and an identifier, a
    parent and a message without line feed, the text has exactly these
    lines: the comment, the header of the allow block, its entry lines (one
    empty line when the list is empty), its three footer lines, the bare
    header of the deny block, its entry lines (or the empty line), its two
    footer lines, and nothing after the final line feed.  That is nine
    lines more than twice the number of entries, eleven for the empty
    list. *)
Theorem X6_document_lines (args : Namespace) (ips : list string)
    (uuid : string) :
  Forall (λ s, lf_free s) ips →
  lf_free uuid → lf_free (parent args) → lf_free (message args) →
  split_nl (document args ips uuid)
  = ["# Authentication gate configuration auto-generated by inspircd-auth-gate-generator.py";
     "<connect name=" +:+ dq +:+ "auth-gate-" +:+ uuid +:+ dq]
    ++ entries_or_blank "allow" ips
    ++ [attr "registered" "true"; attr "requireaccount" "yes";
        attr "parent" (parent args) +:+ ">";
        "<connect"]
    ++ entries_or_blank "deny" ips
    ++ [attr "registered" "true"; attr "reason" (message args) +:+ ">"; ""]
  ∧ length (split_nl (document args ips uuid))
    = 2 * Nat.max 1 (length ips) + 9.
Proof.
  intros Hips Hu Hp Hm.
  assert (Hl : split_nl (document args ips uuid)
    = ["# Authentication gate configuration auto-generated by inspircd-auth-gate-generator.py";
       "<connect name=" +:+ dq +:+ "auth-gate-" +:+ uuid +:+ dq]
      ++ entries_or_blank "allow" ips
      ++ [attr "registered" "true"; attr "requireaccount" "yes";
          attr "parent" (parent args) +:+ ">";
          "<connect"]
      ++ entries_or_blank "deny" ips
      ++ [attr "registered" "true"; attr "reason" (message args) +:+ ">"; ""]).
  { rewrite document_lines, allow_block_lines, deny_block_lines by done.
    cbn [app]. f_equal. f_equal. rewrite <-!app_assoc. done. }
  split; [exact Hl|].
  rewrite Hl. rewrite !length_app, !length_entries_or_blank.
  cbn [length]. lia.
Qed.

Lemma X6_document_lines_witness :
  let args := Sample.to_stdout in
  let ips := Cases.plain_list in
  let uuid := Sample.ids 0 in
  Forall (λ s, lf_free s) ips
  ∧ lf_free uuid ∧ lf_free (parent args) ∧ lf_free (message args)
  ∧ length (split_nl (document args ips uuid)) = 13.
Proof.
  intros args ips uuid.
  assert (Hlf : Forall (λ l, lf_free l) ips) by (repeat constructor).
  refine (conj Hlf (conj I (conj I (conj I _)))).
  exact (proj2 (X6_document_lines args ips uuid Hlf I I I)).
Defined.

(** X7. The text determines the list: two renderings with the same allow
    block, or with the same deny block, come from the same list, whatever
    the other arguments are (entries, identifiers, parents and messages
    without line feed). *)
Theorem X7_list_determined (args args' : Namespace) (ips ips' : list string)
    (uuid uuid' : string) :
  Forall (λ s, lf_free s) ips → Forall (λ s, lf_free s) ips' →
  lf_free uuid → lf_free uuid' →
  lf_free (parent args) → lf_free (parent args') →
  lf_free (message args) → lf_free (message args') →
  ((render args ips uuid).1 = (render args' ips' uuid').1 → ips = ips')
  ∧ ((render args ips uuid).2 = (render args' ips' uuid').2 → ips = ips').
Proof.
  intros Hips Hips' Hu Hu' Hp Hp' Hm Hm'.
  assert (Hinj : ∀ key (l l' : list string),
             map (attr key) l = map (attr key) l' → l = l').
  { intros key l. induction l as [|x l IH]; intros [|x' l'] H; try done.
    pose proof (f_equal head H) as Hx. pose proof (f_equal tail H) as Ht.
    cbn [head tail map] in Hx, Ht. f_equal; [|by apply IH].
    assert (Hv : Some (attr key x) ≫= entry_value key
                 = Some (attr key x') ≫= entry_value key) by by rewrite Hx.
    cbn [mbind option_bind] in Hv. rewrite !entry_value_attr in Hv.
    congruence. }
  split; intros H.
  - apply (f_equal (entry_lines "allow")) in H.
    rewrite !allow_entry_lines in H by done. by apply Hinj in H.
  - apply (f_equal (entry_lines "deny")) in H.
    rewrite !deny_entry_lines in H by done. by apply Hinj in H.
Qed.

Lemma X7_list_determined_witness :
  let a := Sample.to_stdout in
  let a' := Sample.to_file in
  let ips := Cases.plain_list in
  let ips' := ["1.2.3.4/32"; "5.6.7.8/24"] in
  Forall (λ s, lf_free s) ips
  ∧ (render a ips (Sample.ids 0)).2 = (render a' ips' (Sample.ids 1)).2
  ∧ ips = ips'.
Proof.
  intros a a' ips ips'.
  assert (Hlf : Forall (λ l, lf_free l) ips) by (repeat constructor).
  assert (Heq : (render a ips (Sample.ids 0)).2
                = (render a' ips' (Sample.ids 1)).2) by reflexivity.
  exact (conj Hlf (conj Heq
    (proj2 (X7_list_determined a a' ips ips' (Sample.ids 0) (Sample.ids 1)
              Hlf Hlf I I I I I I) Heq))).
Defined.

(** ** The loop *)

Lemma truthy_attr key value : truthy (attr key value).
Proof. done. Qed.

Lemma last_char_attr key value :
  last_char (attr key value) = Some "034"%char.
Proof.
  unfold attr. rewrite <-!sapp_assoc. by apply last_char_app.
Qed.

Lemma join_attrs_last key (x : string) (l : list string) :
  truthy (join nl (map (attr key) (x :: l)))
  ∧ last_char (join nl (map (attr key) (x :: l))) = Some "034"%char.
Proof.
  revert x. induction l as [|y l IH]; intros x.
  - split; [done|apply last_char_attr].
  - destruct (IH y) as [Ht Hl].
    change (join nl (map (attr key) (x :: y :: l)))
      with (attr key x +:+ nl +:+ join nl (map (attr key) (y :: l))).
    split; [done|].
    rewrite last_char_app; [|by destruct (join nl (map (attr key) (y :: l)))].
    change (nl +:+ ?s) with (String LF s).
    rewrite <-Hl.
    destruct (join nl (map (attr key) (y :: l))) eqn:E; [done|]. done.
Qed.

(** X8. The loop leaves in [allow] the [allow] lines of the entries and in
    [deny] their [deny] lines, each joined by single line feeds, for every
    list: both are empty for the empty list, and otherwise both end with
    the closing quote of the last entry and not with a line feed, also
    when the last entry occurs earlier in the list or is empty. *)
Theorem X8_loop (ips : list string) :
  allow_deny ips
  = (join nl (map (attr "allow") ips), join nl (map (attr "deny") ips))
  ∧ (ips = [] → allow_deny ips = ("", ""))
  ∧ (ips ≠ [] →
     last_char (allow_deny ips).1 = Some "034"%char
     ∧ last_char (allow_deny ips).2 = Some "034"%char).
Proof.
  split; [apply allow_deny_join|]. split; [by intros ->|].
  intros Hne. rewrite allow_deny_join. cbn [fst snd].
  destruct ips as [|x l]; [done|].
  split; apply join_attrs_last.
Qed.

Lemma X8_loop_witness :
  let ips := ["1.2.3.4/32"; ""; "1.2.3.4/32"] in
  ips ≠ [] ∧ last_char (allow_deny ips).1 = Some "034"%char.
Proof.
  intros ips.
  assert (Hne : ips ≠ []) by discriminate.
  exact (conj Hne (proj1 (proj2 (proj2 (X8_loop ips)) Hne))).
Defined.

(** ** Reading the list back from the output file *)

(** X9. After a run into a file the list can be read back from that file:
    the values quoted by its [allow] lines are the entries of the list read
    from the response, in order, and so are the values quoted by its [deny]
    lines; no other line of the file is taken for an entry (identifier,
    parent and message without line feed). *)
Theorem X9_read_back (args : Namespace) (w : World) (res : Response) :
  net w (url args) = Some res →
  output args ≠ "" → output args ∉ locked w →
  lf_free (next_uuid w) → lf_free (parent args) → lf_free (message args) →
  ∃ content,
    files (main args w).1 !! output args = Some content
    ∧ map (entry_value "allow") (entry_lines "allow" content)
      = map Some (iter_lines res)
    ∧ map (entry_value "deny") (entry_lines "deny" content)
      = map Some (iter_lines res).
Proof.
  intros Hnet Ho Hl Hu Hp Hm.
  exists (document args (iter_lines res) (next_uuid w)).
  rewrite (main_file args res w Hnet Ho Hl). cbn [fst files].
  split; [apply lookup_insert_eq|].
  assert (Hlf : Forall (λ l, lf_free l) (iter_lines res))
    by apply iter_lines_lf_free.
  destruct (document_entry_lines args (iter_lines res) (next_uuid w)
              Hlf Hu Hp Hm) as [-> ->].
  rewrite !map_map.
  split; apply map_ext; intros ip; apply entry_value_attr.
Qed.

Lemma X9_read_back_witness :
  let args := Sample.to_file in
  let w := Sample.world in
  let res := Sample.ok_response in
  net w (url args) = Some res ∧ output args ≠ "" ∧ (output args ∉ locked w)
  ∧ lf_free (next_uuid w) ∧ lf_free (parent args) ∧ lf_free (message args)
  ∧ ∃ content,
      files (main args w).1 !! output args = Some content
      ∧ map (entry_value "allow") (entry_lines "allow" content)
        = map Some (iter_lines res)
      ∧ map (entry_value "deny") (entry_lines "deny" content)
        = map Some (iter_lines res).
Proof.
  intros args w res.
  assert (Hnet : net w (url args) = Some res) by reflexivity.
  assert (Ho : output args ≠ "") by discriminate.
  assert (Hl : output args ∉ locked w) by apply not_elem_of_empty.
  exact (conj Hnet (conj Ho (conj Hl (conj I (conj I (conj I
    (X9_read_back args w res Hnet Ho Hl I I I))))))).
Defined.

(** ** The list and the lines of the body *)


(** X10. When no chunk border falls between a carriage return and the line
    feed after it, the list read from decoded content is exactly the list
    of the lines of the whole body, empty lines included, however the body
    is cut into chunks; the list read from content without encoding is
    then the list of the reprs of the byte lines of the whole body. *)
Theorem X10_lines_of_body (res : Response) :
  (∀ cs, chunks res = Decoded cs → crlf_cut cs = false →
     iter_lines res = splitlines (text res))
  ∧ (∀ cs shown, chunks res = Raw cs shown → crlf_cut cs = false →
       iter_lines res
       = bytes_repr <$> bytes_splitlines (foldr String.app "" cs)).
Proof.
  split.
  - intros cs Hcs Hcut. unfold iter_lines, text. rewrite Hcs.
    destruct str_breaks as [HLF HCR].
    by apply (iter_lines_go_exact is_linebreak HLF HCR cs None);
      [apply pending_ok_None|].
  - intros cs shown Hcs Hcut. unfold iter_lines. rewrite Hcs.
    destruct bytes_breaks as [HLF HCR]. f_equal.
    by apply (iter_lines_go_exact is_bytes_linebreak HLF HCR cs None);
      [apply pending_ok_None|].
Qed.

Lemma X10_lines_of_body_witness :
  let cs := ["1.2.3"; ".4/32" +:+ String CR nl; nl +:+ "5.6."; "7.8/24" +:+ nl] in
  let res := mkResponse 200 cs in
  chunks res = Decoded cs ∧ crlf_cut cs = false
  ∧ iter_lines res = ["1.2.3.4/32"; ""; "5.6.7.8/24"]
  ∧ iter_lines res = splitlines (text res).
Proof.
  intros cs res.
  assert (Hcs : chunks res = Decoded cs) by reflexivity.
  assert (Hcut : crlf_cut cs = false) by reflexivity.
  refine (conj Hcs (conj Hcut (conj eq_refl _))).
  exact (proj1 (X10_lines_of_body res) cs Hcs Hcut).
Defined.

(** ** The status and the output *)

(** X11. The status of the response bears on the error stream only: two
    runs that differ in nothing but the responses they get, and whose
    responses have the same content under different statuses, end the same
    way and leave the same standard output and the same files.  So the
    lines of an error page are rendered like the lines of a list. *)
Theorem X11_status_blind (args : Namespace) (n n' : string → option Response)
    (rnd : nat → N) (drawn : nat) (out err : string)
    (fs : gmap string string) (lk : gset string) (res res' : Response) :
  n (url args) = Some res → n' (url args) = Some res' →
  chunks res = chunks res' →
  let w := mkWorld n rnd drawn out err fs lk in
  let w' := mkWorld n' rnd drawn out err fs lk in
  (main args w).2 = (main args w').2
  ∧ w_stdout (main args w).1 = w_stdout (main args w').1
  ∧ files (main args w).1 = files (main args w').1.
Proof.
  intros Hn Hn' Hch w w'.
  assert (Hips : iter_lines res = iter_lines res').
  { unfold iter_lines. by rewrite Hch. }
  destruct (decide (output args = "")) as [Ho|Ho].
  { rewrite (main_stdout args res w Hn Ho), (main_stdout args res' w' Hn' Ho).
    cbn [fst snd w_stdout files]. by rewrite Hips. }
  destruct (decide (output args ∈ lk)) as [Hl|Hl].
  { by rewrite (main_locked args res w Hn Ho Hl),
               (main_locked args res' w' Hn' Ho Hl). }
  rewrite (main_file args res w Hn Ho Hl), (main_file args res' w' Hn' Ho Hl).
  cbn [fst snd w_stdout files]. by rewrite Hips.
Qed.

Lemma X11_status_blind_witness :
  let args := Sample.to_stdout in
  let res := Sample.ok_response in
  let res' := mkResponse 503 [Sample.body] in
  let w := mkWorld (λ _, Some res) Sample.draws 0 "" "" ∅ ∅ in
  let w' := mkWorld (λ _, Some res') Sample.draws 0 "" "" ∅ ∅ in
  chunks res = chunks res'
  ∧ w_stdout (main args w).1 = w_stdout (main args w').1.
Proof.
  intros args res res' w w'.
  assert (Hch : chunks res = chunks res') by reflexivity.
  exact (conj Hch (proj1 (proj2
    (X11_status_blind args (λ _, Some res) (λ _, Some res') Sample.draws 0
       "" "" ∅ ∅ res res' eq_refl eq_refl Hch)))).
Defined.
